(** * HeyBoxBot: connection lifecycle and inbound message dispatch

    A shallow embedding of the class [HeyBoxBot] (constructor, [start],
    [stop], [post], [onWebsocketMsg] and the heartbeat closure [ping]),
    with the calls it makes on its collaborators (the WebSocket transport,
    the event bus, the logger, the file system, the timer queue) recorded
    as a trace of effects. *)

From Stdlib Require Import Ascii String.
From stdpp Require Import gmap strings list pretty.

Open Scope string_scope.
Open Scope list_scope.
Set Warnings "-register-all".

(** ** JavaScript values *)

(** What [JSON.parse] can produce, and [undefined], which reading a missing
    property produces. A number is kept as its lexeme: the bot never
    computes with a decoded number. A string is its UTF-8 bytes. *)
Inductive Value : Type :=
| VUndefined
| VNull
| VBool (b : bool)
| VNum (lexeme : string)
| VStr (s : string)
| VArr (items : list Value)
| VObj (fields : list (string * Value)).

(** The exceptions the modelled code can raise. *)
Inductive Exn : Type :=
| SyntaxError (text : string)
| TypeError (reading : string)
| FsError (code path : string)
| ConstructorError (payload : Value).

(** How a piece of code ends: normally, by an exception, or (for the one
    loop of the program) without an answer within the fuel of the model. *)
Inductive Completion (A : Type) : Type :=
| Normal (a : A)
| Thrown (e : Exn)
| Unfinished.
Arguments Normal {A} a.
Arguments Thrown {A} e.
Arguments Unfinished {A}.

(** The property names the bot reads from a decoded frame. None of them is
    a property of a string, number, boolean or array, nor of
    [Object.prototype], so reading one from such a value gives
    [undefined]. *)
Inductive Field : Type :=
| f_type | f_data | f_user_info | f_user_base_info | f_sender_info.

Definition field_name (f : Field) : string :=
  match f with
  | f_type => "type"
  | f_data => "data"
  | f_user_info => "user_info"
  | f_user_base_info => "user_base_info"
  | f_sender_info => "sender_info"
  end.

(** An object decoded from a text that repeats a key keeps the last value. *)
Fixpoint lookup_field (k : string) (fields : list (string * Value)) : option Value :=
  match fields with
  | [] => None
  | (k', v) :: rest =>
      match lookup_field k rest with
      | Some later => Some later
      | None => if String.eqb k k' then Some v else None
      end
  end.

(** [v.f]: a [TypeError] on [undefined] and [null]. *)
Definition get (v : Value) (f : Field) : Completion Value :=
  match v with
  | VUndefined | VNull => Thrown (TypeError (field_name f))
  | VObj fields => Normal (default VUndefined (lookup_field (field_name f) fields))
  | _ => Normal VUndefined
  end.

(** [v === s] for a string literal [s]. *)
Definition strict_eq_string (v : Value) (s : string) : bool :=
  match v with
  | VStr t => String.eqb t s
  | _ => false
  end.

(** [s.startsWith(p)] and [s.endsWith(p)]. *)
Definition startsWith (p s : string) : bool := String.prefix p s.

Fixpoint endsWith (p s : string) : bool :=
  String.eqb s p ||
  match s with
  | EmptyString => false
  | String _ rest => endsWith p rest
  end.

(** ** A decoder for JSON text

    [JSON.parse] is a built-in of the host; the bot is modelled over any
    decoder (a [Variable] of the section below). The decoder of this module
    instantiates it in the examples: objects, arrays, strings with their
    escapes, numbers, [true], [false] and [null], with blanks between
    tokens. A string is kept as the UTF-8 bytes of its text: an escape
    [\uXXXX] gives the bytes of its code point, and a high surrogate
    followed by the escape of a low one gives the four bytes of the code
    point the pair stands for (a surrogate with no partner is kept as three
    bytes). A number is kept as it is written: the bot compares a decoded
    value with strings only, and reads no number. *)
Module Json.

Definition dquote : ascii := "034"%char.
Definition backslash : ascii := "092"%char.

Definition is_ws (c : ascii) : bool :=
  match nat_of_ascii c with
  | 32 | 9 | 10 | 13 => true
  | _ => false
  end.

Fixpoint skip_ws (s : string) : string :=
  match s with
  | String c rest => if is_ws c then skip_ws rest else s
  | EmptyString => s
  end.

Definition is_digit (c : ascii) : bool :=
  (48 <=? nat_of_ascii c)%nat && (nat_of_ascii c <=? 57)%nat.

Fixpoint take_digits (s : string) : string * string :=
  match s with
  | String c rest =>
      if is_digit c then let '(d, r) := take_digits rest in (String c d, r)
      else (EmptyString, s)
  | EmptyString => (EmptyString, s)
  end.

Definition hex_digit (c : ascii) : option nat :=
  let n := nat_of_ascii c in
  if (48 <=? n)%nat && (n <=? 57)%nat then Some (n - 48)
  else if (97 <=? n)%nat && (n <=? 102)%nat then Some (n - 87)
  else if (65 <=? n)%nat && (n <=? 70)%nat then Some (n - 55)
  else None.

Definition utf8 (cp : N) : string :=
  if (cp <? 128)%N then String (ascii_of_N cp) EmptyString
  else if (cp <? 2048)%N then
    String (ascii_of_N (192 + cp / 64))
      (String (ascii_of_N (128 + cp mod 64)) EmptyString)
  else if (cp <? 65536)%N then
    String (ascii_of_N (224 + cp / 4096))
      (String (ascii_of_N (128 + (cp / 64) mod 64))
         (String (ascii_of_N (128 + cp mod 64)) EmptyString))
  else
    String (ascii_of_N (240 + cp / 262144))
      (String (ascii_of_N (128 + (cp / 4096) mod 64))
         (String (ascii_of_N (128 + (cp / 64) mod 64))
            (String (ascii_of_N (128 + cp mod 64)) EmptyString))).

(** The code unit four hexadecimal digits write. *)
Definition hex4 (h1 h2 h3 h4 : ascii) : option N :=
  match hex_digit h1, hex_digit h2, hex_digit h3, hex_digit h4 with
  | Some a, Some b, Some c, Some d =>
      Some (((N.of_nat a * 16 + N.of_nat b) * 16 + N.of_nat c) * 16 + N.of_nat d)%N
  | _, _, _, _ => None
  end.

(** The surrogates, and the code point of a pair. *)
Definition is_high_surrogate (u : N) : bool := (55296 <=? u)%N && (u <? 56320)%N.

Definition is_low_surrogate (u : N) : bool := (56320 <=? u)%N && (u <? 57344)%N.

Definition surrogate_pair (hi lo : N) : N :=
  (65536 + (hi - 55296) * 1024 + (lo - 56320))%N.

Definition simple_escape (c : ascii) : option ascii :=
  match nat_of_ascii c with
  | 34 => Some dquote
  | 92 => Some backslash
  | 47 => Some "/"%char
  | 98 => Some "008"%char
  | 102 => Some "012"%char
  | 110 => Some "010"%char
  | 114 => Some "013"%char
  | 116 => Some "009"%char
  | _ => None
  end.

(** The characters of a string literal, after its opening quote. *)
Fixpoint parse_chars (s : string) : option (string * string) :=
  match s with
  | EmptyString => None
  | String c r =>
      if Ascii.eqb c dquote then Some (EmptyString, r)
      else if Ascii.eqb c backslash then
        match r with
        | String e r1 =>
            if Ascii.eqb e "u"%char then
              match r1 with
              | String h1 (String h2 (String h3 (String h4 r2))) =>
                  match hex4 h1 h2 h3 h4 with
                  | Some u1 =>
                      let alone :=
                        match parse_chars r2 with
                        | Some (body, rest) => Some (utf8 u1 +:+ body, rest)
                        | None => None
                        end in
                      match r2 with
                      | String b (String u (String l1 (String l2 (String l3
                          (String l4 r3))))) =>
                          match hex4 l1 l2 l3 l4 with
                          | Some u2 =>
                              if Ascii.eqb b backslash && Ascii.eqb u "u"%char
                                 && is_high_surrogate u1 && is_low_surrogate u2
                              then
                                match parse_chars r3 with
                                | Some (body, rest) =>
                                    Some (utf8 (surrogate_pair u1 u2) +:+ body, rest)
                                | None => None
                                end
                              else alone
                          | None => alone
                          end
                      | _ => alone
                      end
                  | None => None
                  end
              | _ => None
              end
            else
              match simple_escape e, parse_chars r1 with
              | Some x, Some (body, rest) => Some (String x body, rest)
              | _, _ => None
              end
        | EmptyString => None
        end
      else if (nat_of_ascii c <? 32)%nat then None
      else
        match parse_chars r with
        | Some (body, rest) => Some (String c body, rest)
        | None => None
        end
  end.

(** A number: an optional minus sign, an integer part with no leading
    zero, an optional fraction, an optional exponent. *)
Definition parse_number (s : string) : option (string * string) :=
  let '(sign, s1) :=
    match s with
    | String "-"%char r => ("-", r)
    | _ => (EmptyString, s)
    end in
  let '(int, s2) := take_digits s1 in
  match int with
  | EmptyString => None
  | String "0"%char (String _ _) => None
  | _ =>
      let frac :=
        match s2 with
        | String "."%char r =>
            let '(f, s3) := take_digits r in
            match f with
            | EmptyString => None
            | _ => Some ("." +:+ f, s3)
            end
        | _ => Some (EmptyString, s2)
        end in
      match frac with
      | None => None
      | Some (f, s3) =>
          let with_exp (mark : string) (r : string) :=
            let '(esign, r1) :=
              match r with
              | String "+"%char r' => ("+", r')
              | String "-"%char r' => ("-", r')
              | _ => (EmptyString, r)
              end in
            let '(e, s4) := take_digits r1 in
            match e with
            | EmptyString => None
            | _ => Some (sign +:+ int +:+ f +:+ mark +:+ esign +:+ e, s4)
            end in
          match s3 with
          | String "e"%char r => with_exp "e" r
          | String "E"%char r => with_exp "E" r
          | _ => Some (sign +:+ int +:+ f, s3)
          end
      end
  end.

Definition strip_prefix (p s : string) : option string :=
  if String.prefix p s then Some (String.substring (String.length p) (String.length s - String.length p) s)
  else None.

Fixpoint parse_value (fuel : nat) (s : string) : option (Value * string) :=
  match fuel with
  | O => None
  | S fuel' =>
      match skip_ws s with
      | EmptyString => None
      | String c r as s0 =>
          if Ascii.eqb c "{"%char then
            match skip_ws r with
            | String "}"%char rest => Some (VObj [], rest)
            | r' =>
                match parse_members fuel' r' with
                | Some (fields, rest) => Some (VObj fields, rest)
                | None => None
                end
            end
          else if Ascii.eqb c "["%char then
            match skip_ws r with
            | String "]"%char rest => Some (VArr [], rest)
            | r' =>
                match parse_elements fuel' r' with
                | Some (items, rest) => Some (VArr items, rest)
                | None => None
                end
            end
          else if Ascii.eqb c dquote then
            match parse_chars r with
            | Some (text, rest) => Some (VStr text, rest)
            | None => None
            end
          else if Ascii.eqb c "t"%char then
            option_map (fun rest => (VBool true, rest)) (strip_prefix "true" s0)
          else if Ascii.eqb c "f"%char then
            option_map (fun rest => (VBool false, rest)) (strip_prefix "false" s0)
          else if Ascii.eqb c "n"%char then
            option_map (fun rest => (VNull, rest)) (strip_prefix "null" s0)
          else
            match parse_number s0 with
            | Some (lexeme, rest) => Some (VNum lexeme, rest)
            | None => None
            end
      end
  end
with parse_members (fuel : nat) (s : string) : option (list (string * Value) * string) :=
  match fuel with
  | O => None
  | S fuel' =>
      match skip_ws s with
      | String c r =>
          if Ascii.eqb c dquote then
            match parse_chars r with
            | Some (key, r1) =>
                match skip_ws r1 with
                | String ":"%char r2 =>
                    match parse_value fuel' r2 with
                    | Some (v, r3) =>
                        match skip_ws r3 with
                        | String ","%char r4 =>
                            match parse_members fuel' r4 with
                            | Some (more, rest) => Some ((key, v) :: more, rest)
                            | None => None
                            end
                        | String "}"%char rest => Some ([(key, v)], rest)
                        | _ => None
                        end
                    | None => None
                    end
                | _ => None
                end
            | None => None
            end
          else None
      | EmptyString => None
      end
  end
with parse_elements (fuel : nat) (s : string) : option (list Value * string) :=
  match fuel with
  | O => None
  | S fuel' =>
      match parse_value fuel' s with
      | Some (v, r1) =>
          match skip_ws r1 with
          | String ","%char r2 =>
              match parse_elements fuel' r2 with
              | Some (more, rest) => Some (v :: more, rest)
              | None => None
              end
          | String "]"%char rest => Some ([v], rest)
          | _ => None
          end
      | None => None
      end
  end.

(** [JSON.parse(text)]: [None] stands for the [SyntaxError]. *)
Definition parse (text : string) : option Value :=
  match parse_value (S (String.length text)) text with
  | Some (v, rest) =>
      match skip_ws rest with
      | EmptyString => Some v
      | _ => None
      end
  | None => None
  end.

(** Frames for the examples, written without quote characters in the
    source text: [q] stands for the quote. *)
Definition q : string := String dquote EmptyString.

End Json.

(** ** The bot registry of src/index.ts

    The classes [Plugin], [PluginManager] and [BlackBoxBot]. An object is
    named by the order of its construction; the static field
    [BlackBoxBot.instance] is part of the state. The command manager comes
    from the package gugle-command, which is not among the sources: its
    [prefix] is an argument of the model, [literal(node)] makes a node
    object of the name, and [register] is kept as the list of what was
    registered. *)
Module BlackBox.

(** [Plugin]: the flag its constructor stores, read by [isSingle()]. *)
Record Plugin : Type := { single : bool }.

Definition isSingle (p : Plugin) : bool := single p.

(** [PluginManager]: the plugins registered and the flag given to the
    constructor; the owning bot is the bot that holds the manager. *)
Record PluginManager : Type := {
  plugins : list Plugin;
  manager_single : bool
}.

Definition registerPlugin (plugin : Plugin) (m : PluginManager) : PluginManager :=
  {| plugins := plugins m ++ [plugin]; manager_single := manager_single m |}.

(** [load] and [unload] return the manager and do nothing else. *)
Definition load (plugin : Plugin) (m : PluginManager) : PluginManager := m.

Definition unload (plugin : Plugin) (m : PluginManager) : PluginManager := m.

Definition getPlugins (m : PluginManager) : list Plugin := plugins m.

(** The node [commandManager.literal(name)] returns. *)
Inductive CommandNode : Type := Literal (name : string).

(** A bot: its plugin manager, and what was handed to
    [commandManager.register], the root being [undefined] when the loop
    found none. *)
Record Bot : Type := {
  pluginManager : PluginManager;
  registered : list (string * option CommandNode)
}.

(** The bots constructed so far, the oldest first (a bot is named by its
    place in the list), and [BlackBoxBot.instance]. *)
Record Runtime : Type := {
  bots : list Bot;
  instance : option nat
}.

Definition no_bots : Runtime := {| bots := []; instance := None |}.

(** What a call gives back, or the message of the [Error] it throws. *)
Inductive Outcome (A : Type) : Type :=
| Returned (a : A)
| Raised (message : string).
Arguments Returned {A} a.
Arguments Raised {A} message.

(** [new BlackBoxBot(single)] (lines 58-62). *)
Definition new_BlackBoxBot (single : bool) (r : Runtime) : nat * Runtime :=
  (length (bots r),
   {| bots := bots r
              ++ [{| pluginManager := {| plugins := []; manager_single := single |};
                     registered := [] |}];
      instance := instance r |}).

(** [BlackBoxBot.getInstance()] (lines 64-67). *)
Definition getInstance (r : Runtime) : nat * Runtime :=
  match instance r with
  | Some bot => (bot, r)
  | None =>
      let '(bot, r1) := new_BlackBoxBot false r in
      (bot, {| bots := bots r1; instance := Some bot |})
  end.

(** [bot.pluginManager.load(plugin)] for the bot named [bot]. *)
Definition load_into (bot : nat) (plugin : Plugin) (r : Runtime) : Runtime :=
  {| bots := alter (fun b => {| pluginManager := load plugin (pluginManager b);
                                registered := registered b |}) bot (bots r);
     instance := instance r |}.

(** [BlackBoxBot.loadPlugin(plugin)] (lines 69-73): [new BlackBoxBot()]
    takes the default [single = false]. *)
Definition loadPlugin (plugin : Plugin) (r : Runtime) : nat * Runtime :=
  let '(bot, r1) :=
    if isSingle plugin then new_BlackBoxBot false r else getInstance r in
  (bot, load_into bot plugin r1).

(** [s.split(' ')]: the pieces between the spaces, empty pieces included;
    never an empty array. *)
Fixpoint split_space (s : string) : list string :=
  match s with
  | EmptyString => [EmptyString]
  | String c rest =>
      if Ascii.eqb c " "%char then EmptyString :: split_space rest
      else
        match split_space rest with
        | piece :: pieces => String c piece :: pieces
        | [] => [String c EmptyString]
        end
  end.

(** [s.substring(n)] *)
Definition substring_from (n : nat) (s : string) : string :=
  String.substring n (String.length s - n) s.

(** The loop of lines 100-108 from the node [nodes] begins with, [root]
    being what the nodes before it left. *)
Fixpoint find_root (root : option CommandNode) (nodes : list string)
  : Outcome (option CommandNode) :=
  match nodes with
  | [] => Returned root
  | node :: rest =>
      match root with
      | None =>
          if startsWith "{" node || endsWith "}" node then
            Raised "Invalid command, root node can not be argument node!"
          else find_root (Some (Literal node)) rest
      | Some _ => find_root root rest
      end
  end.

(** The function [command(namespace, command)] returns (lines 91-110),
    applied to an executor, up to its call of [register]: the pair it
    registers. The executor is not used. *)
Definition decorator (prefix namespace command : string)
  : Outcome (string * option CommandNode) :=
  if negb (startsWith prefix command) then Raised "Invalid command"
  else
    let commands := substring_from (String.length prefix) command in
    let nodes := split_space commands in
    if (length nodes <=? 0)%nat then Raised "Invalid command"
    else
      match find_root None nodes with
      | Raised message => Raised message
      | Returned root => Returned (namespace, root)
      end.

(** [bot.command(namespace, command)(executor)] (lines 89-111). *)
Definition command (prefix : string) (bot : nat) (namespace cmd : string) (r : Runtime)
  : Outcome unit * Runtime :=
  match decorator prefix namespace cmd with
  | Raised message => (Raised message, r)
  | Returned entry =>
      (Returned tt,
       {| bots := alter (fun b => {| pluginManager := pluginManager b;
                                     registered := registered b ++ [entry] |})
                    bot (bots r);
          instance := instance r |})
  end.

(** [BlackBoxBot.command(namespace, command)(executor)] (lines 117-119). *)
Definition static_command (prefix namespace cmd : string) (r : Runtime)
  : Outcome unit * Runtime :=
  let '(bot, r1) := getInstance r in
  command prefix bot namespace cmd r1.

(** The calls a program can make on the class. *)
Inductive Call : Type :=
| CallGetInstance
| CallLoadPlugin (plugin : Plugin)
| CallCommand (bot : nat) (namespace command : string)
| CallStaticCommand (namespace command : string).

Definition call (prefix : string) (c : Call) (r : Runtime) : Runtime :=
  match c with
  | CallGetInstance => (getInstance r).2
  | CallLoadPlugin plugin => (loadPlugin plugin r).2
  | CallCommand bot namespace cmd => (command prefix bot namespace cmd r).2
  | CallStaticCommand namespace cmd => (static_command prefix namespace cmd r).2
  end.

Definition calls (prefix : string) (cs : list Call) (r : Runtime) : Runtime :=
  foldl (fun r c => call prefix c r) r cs.

(** The text of [s] up to its first space. *)
Fixpoint until_space (s : string) : string :=
  match s with
  | EmptyString => EmptyString
  | String c rest =>
      if Ascii.eqb c " "%char then EmptyString else String c (until_space rest)
  end.

End BlackBox.

(** ** Collaborators: what the bot calls, and what it is called with *)

Inductive Level : Type := debug | info | warning | error.

(** The argument of a logger method: a message, or a caught exception. *)
Inductive LogArg : Type :=
| LogText (s : string)
| LogExn (e : Exn).

(** The three methods [start] hands to [eventManager.listen]. *)
Inductive Handler : Type :=
| h_onWebsocketMsg
| h_onUserMessage
| h_onCommandMessage.

(** An argument of [post]. [ArgBot] is [this]; [ArgPath] the path given to
    [start]; [ArgFrame] the raw data of a transport message;
    [ArgUserImMessage userMsg] the object
    [new UserImMessageImpl(msg => bot.sendMsg(msg), userMsg)]. *)
Inductive Arg : Type :=
| ArgBot
| ArgPath (p : string)
| ArgFrame (data : string)
| ArgValue (v : Value)
| ArgUserImMessage (userMsg : Value).

(** The calls the bot makes on the world around it, in the order made. *)
Inductive Effect : Type :=
| WsSend (frame : string)
| WsTerminate
| WsClose
| WsOnMessage
| SetTimeout (ms : N)
| Log (lvl : Level) (what : LogArg)
| CreateLogger (name dir level : string)
| Listen (topic : string) (h : Handler)
| Post (topic : string) (args : list Arg)
| Rejection (e : Exn).

Record BotConfig : Type := {
  token : option string;
  logLevel : option string
}.

Record Logger : Type := {
  logger_name : string;
  logger_dir : string;
  logger_level : string
}.

(** An entry of the file system, named by its full path. *)
Inductive Node : Type :=
| Dir
| File (content : string).

(** Modelled from the spec: the event bus is the package gugle-event, whose
    code is not among the sources. Section 4.3 of the specification gives its
    contract: a registration carries a namespace, a priority and a
    cancelable mark; the listeners of a topic run one after the other by
    descending priority, registration order breaking ties; [post] resolves
    to the array of the listeners' return values. A listener is a function
    of the posted arguments that returns a path or nothing ([undefined]);
    listeners that raise or that mark a cancellation are outside the
    model. *)
Record Subscription : Type := {
  sub_topic : string;
  sub_namespace : string;
  sub_priority : Z;
  sub_cancelable : bool;
  sub_callback : list Arg -> option string
}.

(** Modelled from the spec: the place of a new registration among those
    already ordered, after every registration of a priority at least its
    own (section 4.3: descending priority, ties in registration order). *)
Fixpoint insert_by_priority (s : Subscription) (l : list Subscription) : list Subscription :=
  match l with
  | [] => [s]
  | x :: rest =>
      if (sub_priority x <? sub_priority s)%Z then s :: l
      else x :: insert_by_priority s rest
  end.

(** Modelled from the spec: the order in which the bus invokes the
    registrations [subs], given in registration order. *)
Definition invocation_order (subs : list Subscription) : list Subscription :=
  foldl (fun acc s => insert_by_priority s acc) [] subs.

Definition listeners_of (topic : string) (subs : list Subscription) : list Subscription :=
  filter (fun s => sub_topic s = topic) (invocation_order subs).

(** Modelled from the spec: what [eventManager.post(topic, ...args)]
    resolves to, the return values of the topic's listeners in invocation
    order. *)
Definition post_results (subs : list Subscription) (topic : string) (args : list Arg)
  : list (option string) :=
  map (fun s => sub_callback s args) (listeners_of topic subs).

(** ** The bot and its world *)

(** The fields of the class. [path] is a string until [start] reads a slot
    that holds nothing. [heartbeatTimes] is a number that is only ever set
    to 0 or incremented by one from a value of at most 5 (lemma
    [heartbeat_bound]): a natural number. The transport and the event
    manager are objects; of their state the model keeps the callbacks
    bound to the transport's message signal, the methods handed to
    [listen], and the subscriptions. The command manager is not modelled. *)
Record HeyBoxBot : Type := {
  path : option string;
  logger : option Logger;
  heartbeatTimes : nat;
  config : BotConfig;
  wsOpened : bool;
  ws_message_listeners : nat;
  listening : list (string * Handler);
  subscriptions : list Subscription
}.

(** The bot with what it acts on: the file system, the pending
    [setTimeout(ping, 30000)] callbacks, and the working directory of the
    process. *)
Record World : Type := {
  bot : HeyBoxBot;
  files : gmap string Node;
  timers : nat;
  cwd : string
}.

Definition set_bot (f : HeyBoxBot -> HeyBoxBot) (w : World) : World :=
  {| bot := f (bot w); files := files w; timers := timers w; cwd := cwd w |}.

Definition set_files (f : gmap string Node -> gmap string Node) (w : World) : World :=
  {| bot := bot w; files := f (files w); timers := timers w; cwd := cwd w |}.

Definition set_timers (f : nat -> nat) (w : World) : World :=
  {| bot := bot w; files := files w; timers := f (timers w); cwd := cwd w |}.

Definition with_path (p : option string) (b : HeyBoxBot) : HeyBoxBot :=
  {| path := p; logger := logger b; heartbeatTimes := heartbeatTimes b;
     config := config b; wsOpened := wsOpened b;
     ws_message_listeners := ws_message_listeners b;
     listening := listening b; subscriptions := subscriptions b |}.

Definition with_logger (l : option Logger) (b : HeyBoxBot) : HeyBoxBot :=
  {| path := path b; logger := l; heartbeatTimes := heartbeatTimes b;
     config := config b; wsOpened := wsOpened b;
     ws_message_listeners := ws_message_listeners b;
     listening := listening b; subscriptions := subscriptions b |}.

Definition with_heartbeatTimes (n : nat) (b : HeyBoxBot) : HeyBoxBot :=
  {| path := path b; logger := logger b; heartbeatTimes := n;
     config := config b; wsOpened := wsOpened b;
     ws_message_listeners := ws_message_listeners b;
     listening := listening b; subscriptions := subscriptions b |}.

Definition with_wsOpened (o : bool) (b : HeyBoxBot) : HeyBoxBot :=
  {| path := path b; logger := logger b; heartbeatTimes := heartbeatTimes b;
     config := config b; wsOpened := o;
     ws_message_listeners := ws_message_listeners b;
     listening := listening b; subscriptions := subscriptions b |}.

Definition with_ws_message_listeners (n : nat) (b : HeyBoxBot) : HeyBoxBot :=
  {| path := path b; logger := logger b; heartbeatTimes := heartbeatTimes b;
     config := config b; wsOpened := wsOpened b;
     ws_message_listeners := n;
     listening := listening b; subscriptions := subscriptions b |}.

Definition with_listening (l : list (string * Handler)) (b : HeyBoxBot) : HeyBoxBot :=
  {| path := path b; logger := logger b; heartbeatTimes := heartbeatTimes b;
     config := config b; wsOpened := wsOpened b;
     ws_message_listeners := ws_message_listeners b;
     listening := l; subscriptions := subscriptions b |}.

Definition with_subscriptions (l : list Subscription) (b : HeyBoxBot) : HeyBoxBot :=
  {| path := path b; logger := logger b; heartbeatTimes := heartbeatTimes b;
     config := config b; wsOpened := wsOpened b;
     ws_message_listeners := ws_message_listeners b;
     listening := listening b; subscriptions := l |}.

(** ** Programs: state, trace and exceptions *)

Definition Prog (A : Type) : Type := World -> Completion A * World * list Effect.

Definition ret {A} (a : A) : Prog A := fun w => (Normal a, w, []).

Definition bind {A B} (m : Prog A) (k : A -> Prog B) : Prog B :=
  fun w =>
    match m w with
    | (Normal a, w1, t1) => let '(r, w2, t2) := k a w1 in (r, w2, t1 ++ t2)
    | (Thrown e, w1, t1) => (Thrown e, w1, t1)
    | (Unfinished, w1, t1) => (Unfinished, w1, t1)
    end.

Declare Scope prog_scope.
Delimit Scope prog_scope with prog.
Notation "x <- m ;; k" := (bind m (fun x => k))
  (at level 100, m at next level, right associativity) : prog_scope.
Notation "m ;; k" := (bind m (fun _ => k))
  (at level 100, right associativity) : prog_scope.
Open Scope prog_scope.

Definition throw {A} (e : Exn) : Prog A := fun w => (Thrown e, w, []).

Definition lift {A} (c : Completion A) : Prog A := fun w => (c, w, []).

Definition emit (e : Effect) : Prog unit := fun w => (Normal tt, w, [e]).

Definition gets {A} (f : World -> A) : Prog A := fun w => (Normal (f w), w, []).

Definition modify (f : World -> World) : Prog unit := fun w => (Normal tt, f w, []).

(** [try { m } catch (e) { h e }] *)
Definition try_catch {A} (m : Prog A) (h : Exn -> Prog A) : Prog A :=
  fun w =>
    match m w with
    | (Thrown e, w1, t1) => let '(r, w2, t2) := h e w1 in (r, w2, t1 ++ t2)
    | other => other
    end.

(** A promise nobody awaits ([p.then()], or a call whose promise is
    dropped): its rejection reaches no caller. *)
Definition detached (m : Prog unit) : Prog unit :=
  try_catch m (fun e => emit (Rejection e)).

Fixpoint times (n : nat) (m : Prog unit) : Prog unit :=
  match n with
  | O => ret tt
  | S n' => m ;; times n' m
  end.

Definition outcome {A} (r : Completion A * World * list Effect) : Completion A := r.1.1.
Definition world_of {A} (r : Completion A * World * list Effect) : World := r.1.2.
Definition trace_of {A} (r : Completion A * World * list Effect) : list Effect := r.2.

Definition unfinished {A} : Prog A := fun w => (Unfinished, w, []).

#[global] Instance Handler_eq_dec : EqDecision Handler.
Proof. solve_decision. Defined.

(** ** The class *)

Section Bot.

(** [JSON.parse]: [None] when it raises its [SyntaxError]. *)
Variable JSON_parse : string -> option Value.

(** The constructor of [UserImMessageImpl] is defined in ./type/impl, a
    file that is not among the sources: the exception it raises on a
    payload, if it raises one. *)
Variable UserImMessageImpl_raises : Value -> option Exn.

Definition level_name (lvl : Level) : string :=
  match lvl with
  | debug => "debug"
  | info => "info"
  | warning => "warning"
  | error => "error"
  end.

(** [this.logger?.m(what)]: nothing happens while there is no logger. *)
Definition logger_opt (lvl : Level) (what : LogArg) : Prog unit :=
  l <- gets (fun w => logger (bot w)) ;;
  match l with
  | Some _ => emit (Log lvl what)
  | None => ret tt
  end.

(** [bot.logger!.m(what)]: the [!] is erased by the compiler, so without a
    logger the call reads a property of [undefined]. *)
Definition logger_bang (lvl : Level) (what : LogArg) : Prog unit :=
  l <- gets (fun w => logger (bot w)) ;;
  match l with
  | Some _ => emit (Log lvl what)
  | None => throw (TypeError (level_name lvl))
  end.

(** [post(event, ...args)] (lines 187-189): the call on the event bus, and
    what it resolves to. The trace keeps the call. What the listeners of
    the topic do is not part of [post]: the callback of the message signal
    runs the [onWebsocketMsg] registrations itself ([on_message] below),
    and the listeners of user-message and command-message
    ([onUserMessage], [onCommandMessage], lines 254-270) are not run at
    all, since they call code that is not among the sources; so this
    [post] never rejects, where the bus rejects when a listener raises.
    The statements below speak of the calls made on the bus, never of what
    those two listeners do with them. *)
Definition post (event : string) (args : list Arg) : Prog (list (option string)) :=
  emit (Post event args) ;;
  subs <- gets (fun w => subscriptions (bot w)) ;;
  ret (post_results subs event args).

(** [setTimeout(ping, ms)] *)
Definition setTimeout_ping (ms : N) : Prog unit :=
  emit (SetTimeout ms) ;;
  modify (set_timers S).

(** The closure [ping] of the open handler (lines 82-91). *)
Definition ping : Prog unit :=
  n <- gets (fun w => heartbeatTimes (bot w)) ;;
  if (5 <? n)%nat then
    (logger_opt error (LogText "WebSocket connection lost, reconnecting...") ;;
     emit WsTerminate)
  else
    (emit (WsSend "PING") ;;
     modify (set_bot (fun b => with_heartbeatTimes (heartbeatTimes b + 1) b)) ;;
     setTimeout_ping 30000%N).

(** The handler of the transport's open signal (lines 78-93). *)
Definition on_open : Prog unit :=
  modify (set_bot (with_wsOpened true)) ;;
  ping.

(** [onWebsocketMsg(bot, data)] (lines 214-245); [data] is the text
    [data.toString('utf-8')]. *)
Definition onWebsocketMsg (data : string) : Prog unit :=
  let msg := data in
  logger_bang debug (LogText msg) ;;
  if String.eqb msg "PONG" then
    modify (set_bot (with_heartbeatTimes 0))
  else if startsWith "{" msg && endsWith "}" msg then
    try_catch
      (data <- lift (match JSON_parse msg with
                     | Some v => Normal v
                     | None => Thrown (SyntaxError msg)
                     end) ;;
       type <- lift (get data f_type) ;;
       if strict_eq_string type "5" then
         (userMsg <- lift (get data f_data) ;;
          user_info <- lift (get userMsg f_user_info) ;;
          user <- lift (get user_info f_user_base_info) ;;
          lift (match UserImMessageImpl_raises userMsg with
                | Some e => Thrown e
                | None => Normal tt
                end) ;;
          post "user-message" [ArgBot; ArgValue user; ArgUserImMessage userMsg] ;;
          ret tt)
       else if strict_eq_string type "50" then
         (commandMsg <- lift (get data f_data) ;;
          user <- lift (get commandMsg f_sender_info) ;;
          post "command-message" [ArgBot; ArgValue user; ArgValue commandMsg] ;;
          ret tt)
       else ret tt)
      (fun e => logger_bang error (LogExn e))
  else ret tt.

(** The callback [start] binds to the transport's message signal (lines
    127-130): it posts the frame on the topic websocket-message, whose
    listeners are the [onWebsocketMsg] registrations made by [listen]. The
    promise of the post is dropped. Of a delivery the model has the post
    and the runs of [onWebsocketMsg]; the log calls of [onUserMessage] and
    [onCommandMessage], the command execution and the rejections of the
    posts [onWebsocketMsg] drops are outside it. *)
Definition on_message (data : string) : Prog unit :=
  detached
    (post "websocket-message" [ArgBot; ArgFrame data] ;;
     n <- gets (fun w =>
            length (filter (fun r => r = ("websocket-message", h_onWebsocketMsg))
                      (listening (bot w)))) ;;
     times n (onWebsocketMsg data)).

(** [`${p}`] for a path that may be [undefined]. *)
Definition template (p : option string) : string :=
  match p with
  | Some s => s
  | None => "undefined"
  end.

(** The directory a path lies in: the text before its last slash; none
    for a path with no slash, which lies in the working directory. *)
Fixpoint dirname (p : string) : option string :=
  match p with
  | EmptyString => None
  | String c rest =>
      match dirname rest with
      | Some d => Some (String c d)
      | None => if Ascii.eqb c "/"%char then Some EmptyString else None
      end
  end.

(** [fs.existsSync], [fs.mkdirSync] and [fs.renameSync] on the entries
    named by the path they are given. [mkdirSync] is not recursive: it
    fails on a path that exists (EEXIST), on one whose directory is missing
    (ENOENT) and on one whose directory is a file (ENOTDIR); the root and
    the working directory are there. [renameSync] fails on a missing
    source. Permissions and the other ways the host can fail are not
    modelled. *)
Definition existsSync (p : string) : Prog bool :=
  gets (fun w => bool_decide (is_Some (files w !! p))).

Definition mkdir_error (m : gmap string Node) (p : string) : option Exn :=
  if bool_decide (is_Some (m !! p)) then Some (FsError "EEXIST" p)
  else
    match dirname p with
    | None | Some EmptyString => None
    | Some d =>
        match m !! d with
        | Some Dir => None
        | Some (File _) => Some (FsError "ENOTDIR" p)
        | None => Some (FsError "ENOENT" p)
        end
    end.

Definition mkdirSync (p : string) : Prog unit :=
  e <- gets (fun w => mkdir_error (files w) p) ;;
  match e with
  | Some e => throw e
  | None => modify (set_files (insert p Dir))
  end.

Definition renameSync (old new : string) : Prog unit :=
  n <- gets (fun w => files w !! old) ;;
  match n with
  | None => throw (FsError "ENOENT" old)
  | Some node => modify (set_files (fun m => <[new := node]> (delete old m)))
  end.

(** The name the rotation loop tests when [count] has the value [count]
    (lines 113 and 117); [clock count] is what
    [dayjs().format('YYYY-MM-DD-HH-mm-ss')] returns on that reading of the
    clock. *)
Definition log_name (clock : nat -> string) (logPath : string) (count : nat) : string :=
  match count with
  | O => logPath +:+ "/" +:+ clock 0 +:+ ".log"
  | S _ => logPath +:+ "/" +:+ clock count +:+ "-" +:+ pretty count +:+ ".log"
  end.

(** The loop of lines 115-118, entered with [count]; [fuel] bounds the
    number of times its body runs. *)
Fixpoint free_log_name (clock : nat -> string) (logPath : string) (fuel count : nat)
  : Prog string :=
  ex <- existsSync (log_name clock logPath count) ;;
  if ex then
    match fuel with
    | O => unfinished
    | S fuel' => free_log_name clock logPath fuel' (S count)
    end
  else ret (log_name clock logPath count).

(** [eventManager.listen(topic, h)] and [ws.on('message', ...)]. *)
Definition listen (topic : string) (h : Handler) : Prog unit :=
  emit (Listen topic h) ;;
  modify (set_bot (fun b => with_listening (listening b ++ [(topic, h)]) b)).

Definition ws_on_message : Prog unit :=
  emit WsOnMessage ;;
  modify (set_bot (fun b => with_ws_message_listeners (ws_message_listeners b + 1) b)).

(** [this.config.logLevel || 'info'] *)
Definition level_or_info (c : BotConfig) : string :=
  match logLevel c with
  | None => "info"
  | Some l => if String.eqb l "" then "info" else l
  end.

(** Modelled from the spec: [LoggerFactory.createLogger] is defined in
    ./logger, a file that is not among the sources; it is the logging
    collaborator that writes the run's log under the directory it is
    given. The model keeps the call and the logger it returns; what the
    logger writes is kept in the trace (the [Log] calls) and not in
    [files], which holds the entries as the class's own [fs] calls leave
    them. *)
Definition createLogger (name dir level : string) : Prog Logger :=
  emit (CreateLogger name dir level) ;;
  ret {| logger_name := name; logger_dir := dir; logger_level := level |}.

(** Lines 111-120 of [start]: make the logs directory if it is missing,
    and move an existing latest.log out of the way. *)
Definition rotate_logs (clock : nat -> string) (fuel : nat) (logPath : string) : Prog unit :=
  (ex <- existsSync logPath ;;
   if negb ex then mkdirSync logPath else ret tt) ;;
  ex <- existsSync (logPath +:+ "/latest.log") ;;
  if ex then
    (logName <- free_log_name clock logPath fuel 0 ;;
     renameSync (logPath +:+ "/latest.log") logName)
  else ret tt.

(** Lines 121-132 of [start]: create the logger, bind the three listeners
    and the message callback, post after-start without awaiting it. *)
Definition bind_handlers (logPath : string) : Prog unit :=
  level <- gets (fun w => level_or_info (config (bot w))) ;;
  l <- createLogger "HeyBoxBot" logPath level ;;
  modify (set_bot (with_logger (Some l))) ;;
  emit (Log info (LogText "HeyBox Bot starting...")) ;;
  listen "websocket-message" h_onWebsocketMsg ;;
  listen "user-message" h_onUserMessage ;;
  listen "command-message" h_onCommandMessage ;;
  ws_on_message ;;
  post "after-start" [ArgBot] ;;
  ret tt.

(** The callback [start] gives to [then] (lines 106-133); [args] is what
    the post of before-start resolved to, and [args !! 1] is [args[1]]. *)
Definition start_then (clock : nat -> string) (fuel : nat) (args : list (option string))
  : Prog unit :=
  let arg1 := default None (args !! 1%nat) in
  modify (set_bot (with_path arg1)) ;;
  this_path <- gets (fun w => path (bot w)) ;;
  let logPath := template this_path +:+ "/logs" in
  rotate_logs clock fuel logPath ;;
  bind_handlers logPath.

(** [start(path = process.cwd())] (lines 104-136). *)
Definition start (clock : nat -> string) (fuel : nat) (path : option string) : Prog unit :=
  c <- gets cwd ;;
  let path := default c path in
  args <- post "before-start" [ArgBot; ArgPath path] ;;
  start_then clock fuel args.

(** What [start] takes as its working path: the second entry of the array
    the post of before-start resolves to; and the logs directory it
    derives from it. *)
Definition adopted_path (w : World) (p : option string) : option string :=
  default None
    (post_results (subscriptions (bot w)) "before-start"
       [ArgBot; ArgPath (default (cwd w) p)] !! 1%nat).

Definition logs_dir (w : World) (p : option string) : string :=
  template (adopted_path w p) +:+ "/logs".

(** [stop()] (lines 146-155). *)
Definition stop : Prog unit :=
  post "before-start" [ArgBot] ;;
  (opened <- gets (fun w => wsOpened (bot w)) ;;
   if opened then emit WsClose else ret tt) ;;
  post "after-stop" [ArgBot] ;;
  ret tt.

(** [subscribe(event, namespace, priority, cancelable)(callback)] (lines
    199-206). *)
Definition subscribe (s : Subscription) : Prog unit :=
  modify (set_bot (fun b => with_subscriptions (subscriptions b ++ [s]) b)).

(** The state the constructor leaves (lines 20-22, 47, 53-94): no logger,
    no missed heartbeat, transport not open, nothing bound yet. *)
Definition new_HeyBoxBot (c : BotConfig) (dir : string) (fs : gmap string Node) : World :=
  {| bot := {| path := Some dir; logger := None; heartbeatTimes := 0;
               config := c; wsOpened := false; ws_message_listeners := 0;
               listening := []; subscriptions := [] |};
     files := fs; timers := 0; cwd := dir |}.

(** ** The event loop *)

(** What can happen to a bot: the transport's open signal, a pending
    [setTimeout] callback coming due, a frame arriving, and the calls of
    the public methods. *)
Inductive Event : Type :=
| EvOpen
| EvTimer
| EvMessage (data : string)
| EvStart (path : option string) (clock : nat -> string) (fuel : nat)
| EvStop
| EvSubscribe (s : Subscription).

(** The transport gives its open signal at most once; a timer event needs
    a pending callback; a frame reaches each callback bound to the message
    signal. *)
Definition step (ev : Event) : Prog unit :=
  match ev with
  | EvOpen =>
      opened <- gets (fun w => wsOpened (bot w)) ;;
      if opened then ret tt else on_open
  | EvTimer =>
      n <- gets timers ;;
      match n with
      | O => ret tt
      | S n' => modify (set_timers (fun _ => n')) ;; ping
      end
  | EvMessage data =>
      n <- gets (fun w => ws_message_listeners (bot w)) ;;
      times n (on_message data)
  | EvStart path clock fuel => detached (start clock fuel path)
  | EvStop => stop
  | EvSubscribe s => subscribe s
  end.

Fixpoint run (evs : list Event) : Prog unit :=
  match evs with
  | [] => ret tt
  | ev :: rest => step ev ;; run rest
  end.

(** ** Observations on traces, journals and states *)

Definition count_of (p : Effect -> bool) (tr : list Effect) : nat :=
  length (List.filter p tr).

(** A liveness probe: the frame PING handed to the transport. *)
Definition is_probe (e : Effect) : bool :=
  match e with
  | WsSend frame => String.eqb frame "PING"
  | _ => false
  end.

Definition is_terminate (e : Effect) : bool :=
  match e with
  | WsTerminate => true
  | _ => false
  end.

Definition is_close (e : Effect) : bool :=
  match e with
  | WsClose => true
  | _ => false
  end.

Definition is_error_log (e : Effect) : bool :=
  match e with
  | Log error _ => true
  | _ => false
  end.

(** A call on the transport or on the timer queue. *)
Definition is_transport_call (e : Effect) : bool :=
  match e with
  | WsSend _ | WsTerminate | SetTimeout _ => true
  | _ => false
  end.

(** The topic of a post; no topic for any other call. *)
Definition posted_topic (e : Effect) : option string :=
  match e with
  | Post topic _ => Some topic
  | _ => None
  end.

(** The liveness reply: a frame whose text is exactly PONG. *)
Definition is_reply (ev : Event) : bool :=
  match ev with
  | EvMessage data => String.eqb data "PONG"
  | _ => false
  end.

(** [start] has completed at least once: there is a logger, a callback on
    the transport's message signal and an [onWebsocketMsg] registration. *)
Definition is_started (w : World) : bool :=
  bool_decide (is_Some (logger (bot w)))
  && bool_decide (0 < ws_message_listeners (bot w))
  && bool_decide
       (0 < length (filter (fun r => r = ("websocket-message", h_onWebsocketMsg))
                      (listening (bot w)))).

(** The heartbeat as the claims speak of it: ticks and liveness replies. *)
Inductive Beat : Type := Tick | Reply.

Definition beat_event (b : Beat) : Event :=
  match b with
  | Tick => EvTimer
  | Reply => EvMessage "PONG"
  end.

(** The events of a run, each with the calls it made, and the world the
    run ends in. *)
Fixpoint journal (evs : list Event) (w : World) : list (Event * list Effect) * World :=
  match evs with
  | [] => ([], w)
  | ev :: rest =>
      let r := step ev w in
      let '(j, w') := journal rest (world_of r) in
      ((ev, trace_of r) :: j, w')
  end.

(** The probes sent since the most recent reply, or since the journal
    began when it holds no reply. *)
Definition sent_since_reply (j : list (Event * list Effect)) : nat :=
  foldl (fun acc entry => if is_reply entry.1 then 0 else acc + count_of is_probe entry.2) 0 j.


(** [v] is [undefined] or [null]. *)
Definition nullish (v : Value) : bool :=
  match v with
  | VUndefined | VNull => true
  | _ => false
  end.

(** [v.f] where [v] is known not to be nullish. *)
Definition field (v : Value) (f : Field) : Value :=
  match get v f with
  | Normal x => x
  | _ => VUndefined
  end.

(** A program keeps [I] with calls in [E]: from a world in [I] it ends in
    a world in [I], and every call it made is in [E]. *)
Definition keeps {A} (I : World -> Prop) (E : Effect -> Prop) (m : Prog A) : Prop :=
  ∀ w, I w → I (world_of (m w)) ∧ Forall E (trace_of (m w)).

(** The world has no pending timer and the transport has opened: no
    heartbeat can run any more. *)
Definition timers_dead (w : World) : Prop :=
  timers w = 0 ∧ wsOpened (bot w) = true.

(** Not a call on the transport or on the timer queue. *)
Definition quiet (e : Effect) : Prop := is_transport_call e = false.

(** The counter set back to 0. *)
Definition reset : World -> World := set_bot (with_heartbeatTimes 0).

(** The handlers [start] registered, which no heartbeat event changes. *)
Definition same_setup (w w' : World) : Prop :=
  logger (bot w') = logger (bot w)
  ∧ ws_message_listeners (bot w') = ws_message_listeners (bot w)
  ∧ listening (bot w') = listening (bot w).

(** The [onWebsocketMsg] registrations on the topic websocket-message. *)
Definition registrations (w : World) : nat :=
  length (filter (fun r => r = ("websocket-message", h_onWebsocketMsg)) (listening (bot w))).

(** What lines 121-130 make of the bot. *)
Definition started_bot (logPath : string) (b : HeyBoxBot) : HeyBoxBot :=
  with_ws_message_listeners (ws_message_listeners b + 1)
    (with_listening
       (listening b
        ++ [("websocket-message", h_onWebsocketMsg)]
        ++ [("user-message", h_onUserMessage)]
        ++ [("command-message", h_onCommandMessage)])
       (with_logger
          (Some {| logger_name := "HeyBoxBot"; logger_dir := logPath;
                   logger_level := level_or_info (config b) |}) b)).

(** A post of a frame on the topic websocket-message. *)
Definition is_frame_post (e : Effect) : bool :=
  match e with
  | Post topic _ => String.eqb topic "websocket-message"
  | _ => false
  end.

Definition is_start (ev : Event) : bool :=
  match ev with
  | EvStart _ _ _ => true
  | _ => false
  end.

(** No more than [limit] ticks in a row without a reply, [missed] ticks
    having gone by since the last one. *)
Fixpoint replies_in_time (limit missed : nat) (beats : list Beat) : bool :=
  match beats with
  | [] => true
  | Tick :: rest => (missed <? limit)%nat && replies_in_time limit (S missed) rest
  | Reply :: rest => replies_in_time limit 0 rest
  end.

Definition ticks (beats : list Beat) : nat :=
  length (List.filter (fun b => match b with Tick => true | Reply => false end) beats).

(** Whoever can be handed a frame has a logger to write to: nothing is
    bound to the message signal and [onWebsocketMsg] is registered nowhere,
    or the logger exists. *)
Definition logger_before_frames (w : World) : Prop :=
  (ws_message_listeners (bot w) = 0%nat ∧ registrations w = 0%nat)
  ∨ is_Some (logger (bot w)).

(** ** Inputs for the examples *)

Definition example_config : BotConfig := {| token := Some "token"; logLevel := None |}.

Definition example_files : gmap string Node :=
  {[ "/bot/logs" := Dir; "/bot/logs/latest.log" := File "first run" ]}.

Definition example_clock : nat -> string := fun _ => "2024-05-06-07-08-09".

Definition example_listener (reply : string) : Subscription :=
  {| sub_topic := "before-start"; sub_namespace := "gugle-event";
     sub_priority := 100; sub_cancelable := false;
     sub_callback := fun _ => Some reply |}.

Definition example_no_raise : Value -> option Exn := fun _ => None.

(** A bot just constructed; the same with two listeners of before-start,
    the first returning /first and the second /bot; that bot after
    [start]; and a bot with one listener of before-start, which returns
    /custom. *)
Definition example_fresh : World := new_HeyBoxBot example_config "/bot" example_files.

Definition example_subscribed : World :=
  world_of (subscribe (example_listener "/bot")
              (world_of (subscribe (example_listener "/first") example_fresh))).

Definition example_started : World :=
  world_of (start example_clock 2 None example_subscribed).

Definition example_one_listener : World :=
  world_of (subscribe (example_listener "/custom") example_fresh).

(** The frames [{"type":"5","data":{}}] and [{oops}]. *)
Definition example_frame_no_user_info : string :=
  "{" +:+ Json.q +:+ "type" +:+ Json.q +:+ ":" +:+ Json.q +:+ "5" +:+ Json.q +:+ ","
  +:+ Json.q +:+ "data" +:+ Json.q +:+ ":{}}".

Definition example_frame_undecodable : string := "{oops}".

(** * Proofs *)

(** ** Reasoning about programs *)

Ltac break_world w :=
  let b := fresh "b" in
  destruct w as [b ? ? ?]; destruct b; simpl in *.

Lemma count_of_app p (t1 t2 : list Effect) :
  count_of p (t1 ++ t2) = count_of p t1 + count_of p t2.
Proof. unfold count_of. by rewrite List.filter_app, length_app. Qed.

Lemma count_of_none p (tr : list Effect) :
  Forall (fun e => p e = false) tr → count_of p tr = 0.
Proof.
  unfold count_of. induction 1 as [|e tr He _ IH]; simpl; [done|].
  by rewrite He.
Qed.

Section Keeps.

Context {I : World -> Prop} {E : Effect -> Prop}.

Lemma keeps_ret {A} (a : A) : keeps I E (ret a).
Proof. intros w Hw. split; [done | constructor]. Qed.

Lemma keeps_throw {A} e : keeps I E (@throw A e).
Proof. intros w Hw. split; [done | constructor]. Qed.

Lemma keeps_unfinished {A} : keeps I E (@unfinished A).
Proof. intros w Hw. split; [done | constructor]. Qed.

Lemma keeps_lift {A} (c : Completion A) : keeps I E (lift c).
Proof. intros w Hw. split; [done | constructor]. Qed.

Lemma keeps_gets {A} (f : World -> A) : keeps I E (gets f).
Proof. intros w Hw. split; [done | constructor]. Qed.

Lemma keeps_emit e : E e → keeps I E (emit e).
Proof. intros He w Hw. split; [done | by repeat constructor]. Qed.

Lemma keeps_modify f : (∀ w, I w → I (f w)) → keeps I E (modify f).
Proof. intros Hf w Hw. split; [by apply Hf | constructor]. Qed.

Lemma keeps_bind {A B} (m : Prog A) (k : A -> Prog B) :
  keeps I E m → (∀ a, keeps I E (k a)) → keeps I E (bind m k).
Proof.
  intros Hm Hk w Hw. unfold bind, world_of, trace_of.
  destruct (Hm w Hw) as [H1 H2]. unfold world_of, trace_of in H1, H2.
  destruct (m w) as [[[a|e|] w1] t1]; simpl in *; [|done|done].
  destruct (Hk a w1 H1) as [H3 H4]. unfold world_of, trace_of in H3, H4.
  destruct (k a w1) as [[r w2] t2]; simpl in *.
  split; [done | by apply Forall_app].
Qed.

Lemma keeps_try_catch {A} (m : Prog A) (h : Exn -> Prog A) :
  keeps I E m → (∀ e, keeps I E (h e)) → keeps I E (try_catch m h).
Proof.
  intros Hm Hh w Hw. unfold try_catch, world_of, trace_of.
  destruct (Hm w Hw) as [H1 H2]. unfold world_of, trace_of in H1, H2.
  destruct (m w) as [[[a|e|] w1] t1]; simpl in *; [done| |done].
  destruct (Hh e w1 H1) as [H3 H4]. unfold world_of, trace_of in H3, H4.
  destruct (h e w1) as [[r w2] t2]; simpl in *.
  split; [done | by apply Forall_app].
Qed.

Lemma keeps_detached (m : Prog unit) :
  keeps I E m → (∀ e, E (Rejection e)) → keeps I E (detached m).
Proof.
  intros Hm He. apply keeps_try_catch; [done|].
  intros e. by apply keeps_emit.
Qed.

Lemma keeps_times n (m : Prog unit) : keeps I E m → keeps I E (times n m).
Proof.
  intros Hm. induction n as [|n IH]; simpl.
  - apply keeps_ret.
  - apply keeps_bind; [done | by intros _].
Qed.

End Keeps.

(** Splits a goal [keeps I E m] along the structure of [m]; what is left
    are the conditions on its [modify] and [emit] steps. *)
Ltac keeps_step :=
  lazymatch goal with
  | |- keeps _ _ (bind _ _) => apply keeps_bind; [|intros ?]
  | |- keeps _ _ (ret _) => apply keeps_ret
  | |- keeps _ _ (throw _) => apply keeps_throw
  | |- keeps _ _ unfinished => apply keeps_unfinished
  | |- keeps _ _ (lift _) => apply keeps_lift
  | |- keeps _ _ (gets _) => apply keeps_gets
  | |- keeps _ _ (emit _) => apply keeps_emit
  | |- keeps _ _ (modify _) => apply keeps_modify
  | |- keeps _ _ (try_catch _ _) => apply keeps_try_catch; [|intros ?]
  | |- keeps _ _ (detached _) => apply keeps_detached; [|intros ?]
  | |- keeps _ _ (times _ _) => apply keeps_times
  | |- keeps _ _ (if ?c then _ else _) => destruct c eqn:?
  | |- keeps _ _ (match ?x with _ => _ end) => destruct x eqn:?
  end.

Ltac keeps_auto := repeat keeps_step.

Lemma keeps_free_log_name I E clock logPath fuel count :
  keeps I E (free_log_name clock logPath fuel count).
Proof.
  revert count. induction fuel as [|fuel IH]; intros count; simpl;
    unfold existsSync; keeps_auto.
  apply IH.
Qed.

(** Unfolds the operation at the head of a [keeps] goal. *)
Ltac keeps_open :=
  lazymatch goal with
  | |- keeps _ _ (free_log_name _ _ _ _) => apply keeps_free_log_name
  | |- keeps _ _ (post _ _) => unfold post
  | |- keeps _ _ ping => unfold ping
  | |- keeps _ _ on_open => unfold on_open
  | |- keeps _ _ stop => unfold stop
  | |- keeps _ _ (subscribe _) => unfold subscribe
  | |- keeps _ _ (start _ _ _) => unfold start
  | |- keeps _ _ (start_then _ _ _) => unfold start_then
  | |- keeps _ _ (rotate_logs _ _ _) => unfold rotate_logs
  | |- keeps _ _ (bind_handlers _) => unfold bind_handlers
  | |- keeps _ _ (onWebsocketMsg _) => unfold onWebsocketMsg
  | |- keeps _ _ (on_message _) => unfold on_message
  | |- keeps _ _ (logger_opt _ _) => unfold logger_opt
  | |- keeps _ _ (logger_bang _ _) => unfold logger_bang
  | |- keeps _ _ (setTimeout_ping _) => unfold setTimeout_ping
  | |- keeps _ _ (existsSync _) => unfold existsSync
  | |- keeps _ _ (mkdirSync _) => unfold mkdirSync
  | |- keeps _ _ (renameSync _ _) => unfold renameSync
  | |- keeps _ _ (listen _ _) => unfold listen
  | |- keeps _ _ ws_on_message => unfold ws_on_message
  | |- keeps _ _ (createLogger _ _ _) => unfold createLogger
  end.

Ltac keeps_all := repeat first [keeps_step | keeps_open].

(** Closes the conditions [keeps_all] leaves when the invariant reads
    fields of the world that the step does not write. *)
Ltac keeps_side :=
  first
    [ done
    | let w := fresh "w" in
      intros w; break_world w; intros; simpl in *; intuition (done || lia) ].

Lemma keeps_run I E evs : (∀ ev, keeps I E (step ev)) → keeps I E (run evs).
Proof.
  intros Hstep. induction evs as [|ev evs IH]; simpl.
  - apply keeps_ret.
  - apply keeps_bind; [apply Hstep | by intros _].
Qed.

(** *** The open flag is only ever raised *)

Lemma step_keeps_opened ev :
  keeps (fun w => wsOpened (bot w) = true) (fun _ => True) (step ev).
Proof. destruct ev; unfold step; keeps_all; keeps_side. Qed.

(** *** No heartbeat without a pending timer *)

Lemma step_keeps_dead ev : keeps timers_dead quiet (step ev).
Proof.
  destruct ev; unfold step.
  - intros w [Ht Ho]. unfold bind, gets, world_of, trace_of; simpl.
    rewrite Ho; simpl. repeat split; [done..|constructor].
  - intros w [Ht Ho]. unfold bind, gets, world_of, trace_of; simpl.
    rewrite Ht; simpl. repeat split; [done..|constructor].
  - unfold timers_dead, quiet. keeps_all; keeps_side.
  - unfold timers_dead, quiet. keeps_all; keeps_side.
  - unfold timers_dead, quiet. keeps_all; keeps_side.
  - unfold timers_dead, quiet. keeps_all; keeps_side.
Qed.

Lemma quiet_counts (tr : list Effect) :
  Forall quiet tr → count_of is_probe tr = 0 ∧ count_of is_terminate tr = 0.
Proof.
  intros H. split; apply count_of_none; eapply Forall_impl; try exact H;
    intros [] Hq; unfold quiet in Hq; simpl in *; done.
Qed.

(** *** The counter stays within 6 *)

Lemma ping_keeps_bound :
  keeps (fun w => (heartbeatTimes (bot w) ≤ 6)%nat) (fun _ => True) ping.
Proof.
  intros w Hw. unfold ping, bind, gets, world_of, trace_of; simpl.
  destruct (5 <? heartbeatTimes (bot w))%nat eqn:Hlt; simpl.
  - unfold logger_opt, bind, gets; simpl.
    destruct (logger (bot w)); simpl; split; try done; by repeat constructor.
  - apply Nat.ltb_ge in Hlt. split; [lia | by repeat constructor].
Qed.

Lemma step_keeps_bound ev :
  keeps (fun w => (heartbeatTimes (bot w) ≤ 6)%nat) (fun _ => True) (step ev).
Proof.
  destruct ev; unfold step;
    repeat first [apply ping_keeps_bound | keeps_step | keeps_open];
    keeps_side.
Qed.

Lemma bind_assoc {A B C} (m : Prog A) (k : A -> Prog B) (h : B -> Prog C) w :
  bind (bind m k) h w = bind m (fun a => bind (k a) h) w.
Proof.
  unfold bind. destruct (m w) as [[[a|e|] w1] t1]; simpl; try done.
  destruct (k a w1) as [[[b|e|] w2] t2]; simpl; try done.
  destruct (h b w2) as [[r w3] t3]; simpl. by rewrite app_assoc.
Qed.

Lemma bind_ext {A B} (m : Prog A) (k k' : A -> Prog B) w :
  (∀ a w', k a w' = k' a w') → bind m k w = bind m k' w.
Proof.
  intros Hk. unfold bind. destruct (m w) as [[[a|e|] w1] t1]; simpl; try done.
  by rewrite Hk.
Qed.

Lemma ret_bind {A B} (a : A) (k : A -> Prog B) w : bind (ret a) k w = k a w.
Proof. unfold bind, ret. by destruct (k a w) as [[r w2] t2]. Qed.

Lemma gets_bind {A B} (f : World -> A) (k : A -> Prog B) w :
  bind (gets f) k w = k (f w) w.
Proof. unfold bind, gets. by destruct (k (f w) w) as [[r w2] t2]. Qed.

Lemma emit_bind {B} e (k : unit -> Prog B) w :
  bind (emit e) k w = let '(r, w2, t2) := k tt w in (r, w2, e :: t2).
Proof. done. Qed.

Lemma modify_bind {B} f (k : unit -> Prog B) w : bind (modify f) k w = k tt (f w).
Proof. unfold bind, modify. by destruct (k tt (f w)) as [[r w2] t2]. Qed.

Lemma post_bind {B} event args (k : list (option string) -> Prog B) w :
  bind (post event args) k w
  = let '(r, w2, t2) := k (post_results (subscriptions (bot w)) event args) w in
    (r, w2, Post event args :: t2).
Proof.
  unfold post. rewrite bind_assoc, emit_bind, bind_assoc, gets_bind, ret_bind. done.
Qed.

Lemma run_app evs1 evs2 w :
  run (evs1 ++ evs2) w = bind (run evs1) (fun _ => run evs2) w.
Proof.
  revert w. induction evs1 as [|ev evs1 IH]; intros w; simpl.
  - by rewrite ret_bind.
  - rewrite bind_assoc. apply bind_ext. intros _ w'. apply IH.
Qed.

(** *** Liveness replies *)

Lemma same_setup_started w w' : same_setup w w' → is_started w' = is_started w.
Proof. intros (Hl & Hn & Hk). unfold is_started. by rewrite Hl, Hn, Hk. Qed.

Lemma reset_reset w : reset (reset w) = reset w.
Proof. by break_world w. Qed.

Lemma iter_reset n w : (0 < n)%nat → Nat.iter n reset w = reset w.
Proof.
  induction n as [|n IH]; [lia|]. intros _. simpl.
  destruct n as [|n]; [done|]. rewrite IH by lia. apply reset_reset.
Qed.

Lemma logger_bang_eq w l lvl what :
  logger (bot w) = Some l → logger_bang lvl what w = (Normal tt, w, [Log lvl what]).
Proof. intros Hl. unfold logger_bang. rewrite gets_bind. by rewrite Hl. Qed.

Lemma onWebsocketMsg_PONG w l :
  logger (bot w) = Some l →
  onWebsocketMsg "PONG" w = (Normal tt, reset w, [Log debug (LogText "PONG")]).
Proof.
  intros Hl. unfold onWebsocketMsg, logger_bang, bind, gets. simpl. by rewrite Hl.
Qed.

Lemma times_onWebsocketMsg_PONG k w l :
  logger (bot w) = Some l →
  times k (onWebsocketMsg "PONG") w
  = (Normal tt, Nat.iter k reset w, repeat (Log debug (LogText "PONG")) k).
Proof.
  revert w. induction k as [|k IH]; intros w Hl; simpl; [done|].
  unfold bind. rewrite (onWebsocketMsg_PONG w l Hl).
  rewrite (IH (reset w)) by (by break_world w). simpl.
  f_equal. f_equal. clear. induction k as [|k IH]; simpl; [done|]. by rewrite IH.
Qed.

Lemma on_message_PONG w l :
  logger (bot w) = Some l →
  on_message "PONG" w
  = (Normal tt, Nat.iter (registrations w) reset w,
     Post "websocket-message" [ArgBot; ArgFrame "PONG"]
     :: repeat (Log debug (LogText "PONG")) (registrations w)).
Proof.
  intros Hl. unfold on_message, detached, try_catch, bind, emit, gets. simpl.
  fold (registrations w). by rewrite (times_onWebsocketMsg_PONG _ w l Hl).
Qed.

Lemma iter_reset_setup k w : same_setup w (Nat.iter k reset w).
Proof.
  induction k as [|k IH]; simpl; [done|].
  destruct IH as (Hl & Hn & Hk). revert Hl Hn Hk.
  generalize (Nat.iter k reset w). intros w'. by break_world w'.
Qed.

(** A reply that reaches a started bot: every callback posts the frame on
    websocket-message, every registration logs it at debug level and
    resets the counter; nothing else is called. *)
Lemma step_reply w :
  is_started w = true →
  let r := step (EvMessage "PONG") w in
  outcome r = Normal tt
  ∧ world_of r = reset w
  ∧ Forall (fun e => e = Post "websocket-message" [ArgBot; ArgFrame "PONG"]
                     ∨ e = Log debug (LogText "PONG")) (trace_of r)
  ∧ ∃ rest, trace_of r = Post "websocket-message" [ArgBot; ArgFrame "PONG"] :: rest.
Proof.
  unfold is_started. rewrite !andb_true_iff, !bool_decide_eq_true.
  intros [[[l Hl] Hn] Hk]. fold (registrations w) in Hk.
  unfold step. rewrite gets_bind.
  assert (Hgen : ∀ n w', logger (bot w') = Some l →
            registrations w' = registrations w →
            let r := times n (on_message "PONG") w' in
            outcome r = Normal tt
            ∧ world_of r = match n with O => w' | S _ => reset w' end
            ∧ Forall (fun e => e = Post "websocket-message" [ArgBot; ArgFrame "PONG"]
                               ∨ e = Log debug (LogText "PONG")) (trace_of r)).
  { induction n as [|n IH]; intros w' Hl' Hk'; simpl.
    - repeat split. constructor.
    - unfold bind. rewrite (on_message_PONG w' l Hl'). rewrite Hk'.
      rewrite iter_reset by done.
      destruct (IH (reset w')) as (Ho & Hw & Ht).
      { by break_world w'. }
      { rewrite <- Hk'. unfold registrations. by break_world w'. }
      unfold outcome, world_of, trace_of in *.
      destruct (times n (on_message "PONG") (reset w')) as [[c w2] t2]; simpl in *.
      subst c. repeat split.
      + subst w2. destruct n; [done | apply reset_reset].
      + constructor; [by left|]. apply Forall_app. split; [|done].
        apply Forall_forall. intros e He.
        apply list_elem_of_In, repeat_spec in He. by right. }
  destruct (Hgen (ws_message_listeners (bot w)) w Hl eq_refl) as (Ho & Hw & Ht).
  repeat split; [done| |done|].
  - rewrite Hw. destruct (ws_message_listeners (bot w)); [lia | done].
  - destruct (ws_message_listeners (bot w)) as [|n]; [lia|]. simpl times.
    unfold bind. rewrite (on_message_PONG w l Hl).
    destruct (times n (on_message "PONG") _) as [[c w2] t2]. simpl. eauto.
Qed.

Lemma ping_eq w :
  ping w =
  if (5 <? heartbeatTimes (bot w))%nat then
    (Normal tt, w,
     match logger (bot w) with
     | Some _ => [Log error (LogText "WebSocket connection lost, reconnecting...");
                  WsTerminate]
     | None => [WsTerminate]
     end)
  else
    (Normal tt,
     set_timers S (set_bot (fun b => with_heartbeatTimes (heartbeatTimes b + 1) b) w),
     [WsSend "PING"; SetTimeout 30000]).
Proof.
  unfold ping. rewrite gets_bind.
  destruct (5 <? heartbeatTimes (bot w))%nat; [|done].
  unfold logger_opt, bind, gets. simpl. by destruct (logger (bot w)).
Qed.

Lemma step_timer_eq w :
  step EvTimer w =
  match timers w with
  | O => (Normal tt, w, [])
  | S n => ping (set_timers (fun _ => n) w)
  end.
Proof.
  unfold step. rewrite gets_bind. destruct (timers w) as [|n]; [done|].
  unfold bind, modify. simpl.
  by destruct (ping (set_timers (λ _ : nat, n) w)) as [[r w2] t2].
Qed.

Lemma step_open_eq w :
  step EvOpen w =
  if wsOpened (bot w) then (Normal tt, w, [])
  else ping (set_bot (with_wsOpened true) w).
Proof.
  unfold step. rewrite gets_bind. destruct (wsOpened (bot w)); [done|].
  unfold on_open, bind, modify. simpl.
  by destruct (ping (set_bot (with_wsOpened true) w)) as [[r w2] t2].
Qed.

(** A timer event or the open signal adds to the counter what it sends. *)
Lemma step_tick_counts ev w :
  ev = EvTimer ∨ ev = EvOpen →
  let r := step ev w in
  outcome r = Normal tt
  ∧ heartbeatTimes (bot (world_of r))
    = (heartbeatTimes (bot w) + count_of is_probe (trace_of r))%nat
  ∧ same_setup w (world_of r).
Proof.
  intros [-> | ->] r; subst r.
  - rewrite step_timer_eq. destruct (timers w) as [|n] eqn:Ht.
    + unfold same_setup, outcome, world_of, trace_of, count_of. simpl.
      repeat split; lia.
    + rewrite ping_eq. break_world w.
      destruct (5 <? heartbeatTimes0)%nat; [destruct logger0|];
        unfold same_setup, outcome, world_of, trace_of, count_of; simpl;
        repeat split; lia.
  - rewrite step_open_eq. destruct (wsOpened (bot w)) eqn:Ho.
    + unfold same_setup, outcome, world_of, trace_of, count_of. simpl.
      repeat split; lia.
    + rewrite ping_eq. break_world w.
      destruct (5 <? heartbeatTimes0)%nat; [destruct logger0|];
        unfold same_setup, outcome, world_of, trace_of, count_of; simpl;
        repeat split; lia.
Qed.

Lemma stop_eq w :
  stop w
  = (Normal tt, w,
     [Post "before-start" [ArgBot]]
     ++ (if wsOpened (bot w) then [WsClose] else [])
     ++ [Post "after-stop" [ArgBot]]).
Proof. unfold stop, bind, emit, gets. simpl. by destruct (wsOpened (bot w)). Qed.

(** *** Only a reply clears the counter *)

Lemma step_keeps_missed ev :
  ev ≠ EvMessage "PONG" →
  keeps (fun w => heartbeatTimes (bot w) ≠ 0%nat) (fun _ => True) (step ev).
Proof.
  intros Hev. destruct ev; unfold step; keeps_all; try keeps_side.
  match goal with H : (_ =? "PONG") = true |- _ => apply String.eqb_eq in H end.
  congruence.
Qed.

(** *** Start *)

Lemma bind_handlers_eq logPath w :
  bind_handlers logPath w
  = (Normal tt, set_bot (started_bot logPath) w,
     [CreateLogger "HeyBoxBot" logPath (level_or_info (config (bot w)));
      Log info (LogText "HeyBox Bot starting...");
      Listen "websocket-message" h_onWebsocketMsg;
      Listen "user-message" h_onUserMessage;
      Listen "command-message" h_onCommandMessage;
      WsOnMessage;
      Post "after-start" [ArgBot]]).
Proof.
  break_world w.
  unfold bind_handlers, listen, ws_on_message, createLogger, started_bot, set_bot,
    bind, gets, emit, modify, ret.
  simpl. by rewrite <- !app_assoc.
Qed.

Lemma rotate_logs_keeps_bot clock fuel logPath b t c :
  keeps (fun w => bot w = b ∧ timers w = t ∧ cwd w = c) (fun _ => True)
    (rotate_logs clock fuel logPath).
Proof. keeps_all; keeps_side. Qed.

Lemma start_eq clock fuel p w :
  start clock fuel p w
  = bind (emit (Post "before-start" [ArgBot; ArgPath (default (cwd w) p)]))
      (fun _ => bind (rotate_logs clock fuel (logs_dir w p))
                  (fun _ => bind_handlers (logs_dir w p)))
      (set_bot (with_path (adopted_path w p)) w).
Proof.
  unfold start. rewrite gets_bind, post_bind, emit_bind.
  unfold start_then. by rewrite modify_bind, gets_bind.
Qed.

(** *** Log rotation *)


Lemma string_length_app s t : String.length (s +:+ t) = (String.length s + String.length t)%nat.
Proof. induction s as [|c s IH]; simpl; [done|]. by rewrite IH. Qed.







(** *** Two invariants of the heartbeat *)

(** The counter of a bot never exceeds 6, whatever happens to it. *)
Lemma heartbeat_bound (c : BotConfig) (dir : string) (fs : gmap string Node)
  (evs : list Event) :
  (heartbeatTimes (bot (world_of (run evs (new_HeyBoxBot c dir fs)))) ≤ 6)%nat.
Proof.
  destruct (keeps_run _ _ evs step_keeps_bound (new_HeyBoxBot c dir fs)) as [H _];
    [simpl; lia | done].
Qed.

Lemma step_keeps_one_timer ev :
  keeps (fun w => (timers w ≤ if wsOpened (bot w) then 1 else 0)%nat)
    (fun _ => True) (step ev).
Proof.
  destruct ev.
  - intros w Hw. rewrite step_open_eq.
    destruct (wsOpened (bot w)) eqn:Ho.
    + unfold world_of, trace_of. simpl. rewrite Ho. by split.
    + rewrite ping_eq. break_world w. subst.
      destruct (5 <? heartbeatTimes0)%nat; unfold world_of, trace_of; simpl;
        (split; [lia | by apply Forall_forall]).
  - intros w Hw. rewrite step_timer_eq.
    destruct (timers w) as [|n] eqn:Ht.
    + unfold world_of, trace_of. simpl. rewrite Ht. split; [lia | done].
    + rewrite ping_eq. break_world w. subst.
      destruct (5 <? heartbeatTimes0)%nat; unfold world_of, trace_of; simpl;
        (split; [destruct wsOpened0; lia | by apply Forall_forall]).
  - unfold step. keeps_all; keeps_side.
  - unfold step. keeps_all; keeps_side.
  - unfold step. keeps_all; keeps_side.
  - unfold step. keeps_all; keeps_side.
Qed.

(** At most one heartbeat tick is ever pending, and none before the
    transport has opened. *)
Lemma one_pending_timer (c : BotConfig) (dir : string) (fs : gmap string Node)
  (evs : list Event) :
  let w := world_of (run evs (new_HeyBoxBot c dir fs)) in
  (timers w ≤ 1)%nat ∧ (wsOpened (bot w) = false → timers w = 0%nat).
Proof.
  intros w.
  destruct (keeps_run _ _ evs step_keeps_one_timer (new_HeyBoxBot c dir fs)) as [H _];
    [simpl; lia|].
  fold w in H. destruct (wsOpened (bot w)); split; try done; lia.
Qed.

(** *** Journals of ticks and replies *)

Lemma journal_cons ev evs w :
  journal (ev :: evs) w =
  ((ev, trace_of (step ev w)) :: (journal evs (world_of (step ev w))).1,
   (journal evs (world_of (step ev w))).2).
Proof. simpl. by destruct (journal evs (world_of (step ev w))). Qed.

(** Along ticks and replies on a started bot the counter is the number of
    probes sent since the last reply. *)
Lemma journal_beats_counter beats w acc :
  is_started w = true →
  heartbeatTimes (bot w) = acc →
  heartbeatTimes (bot (journal (map beat_event beats) w).2)
  = foldl (fun acc entry =>
             if is_reply entry.1 then 0%nat
             else (acc + count_of is_probe entry.2)%nat)
      acc (journal (map beat_event beats) w).1.
Proof.
  revert w acc. induction beats as [|b beats IH]; intros w acc Hs Hacc; [done|].
  change (map beat_event (b :: beats)) with (beat_event b :: map beat_event beats).
  rewrite journal_cons. cbn [fst snd foldl].
  destruct b; cbn [beat_event is_reply String.eqb Ascii.eqb Bool.eqb].
  - destruct (step_tick_counts EvTimer w (or_introl eq_refl)) as (_ & Hhb & Hsame).
    apply IH; [by rewrite (same_setup_started _ _ Hsame) | by rewrite Hhb, Hacc].
  - destruct (step_reply w Hs) as (_ & Hw & _ & _).
    apply IH; rewrite Hw; [|by break_world w].
    rewrite <- Hs. unfold is_started, reset. by break_world w.
Qed.

Lemma journal_beats_reply beats w :
  is_started w = true →
  last beats = Some Reply →
  heartbeatTimes (bot (journal (map beat_event beats) w).2) = 0%nat.
Proof.
  revert w. induction beats as [|b beats IH]; intros w Hs Hlast; [done|].
  change (map beat_event (b :: beats)) with (beat_event b :: map beat_event beats).
  rewrite journal_cons. cbn [snd].
  assert (Hs' : is_started (world_of (step (beat_event b) w)) = true).
  { destruct b; simpl beat_event.
    - destruct (step_tick_counts EvTimer w (or_introl eq_refl)) as (_ & _ & Hsame).
      by rewrite (same_setup_started _ _ Hsame).
    - destruct (step_reply w Hs) as (_ & Hw & _ & _). rewrite Hw.
      rewrite <- Hs. unfold is_started, reset. by break_world w. }
  destruct beats as [|b' beats].
  - simpl in Hlast. injection Hlast as ->.
    destruct (step_reply w Hs) as (_ & Hw & _ & _).
    cbn [map journal snd beat_event]. rewrite Hw. by break_world w.
  - apply IH; [done|]. by rewrite last_cons_cons in Hlast.
Qed.

(** ** The claims *)

(** Claim C1, in the form that holds of the code. From a bot whose
    transport has not opened yet and whose counter is 0, with no liveness
    reply: the heartbeat run by the open signal and the next five timer
    ticks each send a probe and schedule the next tick, so after six
    heartbeats six probes are out, nothing is terminated and one tick is
    pending. The seventh heartbeat (the sixth
    timer tick after the open signal) terminates the transport, once,
    logging it at error severity when a logger exists, and schedules
    nothing. Whatever happens afterwards, no seventh probe is sent and the
    transport is not terminated a second time. *)
Theorem C1_terminated_by_seventh_heartbeat (w : World) (evs : list Event) :
  heartbeatTimes (bot w) = 0%nat →
  wsOpened (bot w) = false →
  timers w = 0%nat →
  let six := run (EvOpen :: repeat EvTimer 5) w in
  let seven := run (EvOpen :: repeat EvTimer 6) w in
  let ever := run (EvOpen :: repeat EvTimer 6 ++ evs) w in
  (count_of is_probe (trace_of six) = 6%nat
   ∧ count_of is_terminate (trace_of six) = 0%nat
   ∧ timers (world_of six) = 1%nat)
  ∧ (trace_of seven =
       concat (repeat [WsSend "PING"; SetTimeout 30000] 6)
       ++ match logger (bot w) with
          | Some _ => [Log error (LogText "WebSocket connection lost, reconnecting...")]
          | None => []
          end
       ++ [WsTerminate]
     ∧ timers (world_of seven) = 0%nat)
  ∧ (count_of is_probe (trace_of ever) = 6%nat
     ∧ count_of is_terminate (trace_of ever) = 1%nat).
Proof.
  intros Hhb Hopen Htimers six seven ever.
  assert (Hseven : trace_of seven =
       concat (repeat [WsSend "PING"; SetTimeout 30000] 6)
       ++ match logger (bot w) with
          | Some _ => [Log error (LogText "WebSocket connection lost, reconnecting...")]
          | None => []
          end
       ++ [WsTerminate]
     ∧ timers (world_of seven) = 0%nat
     ∧ wsOpened (bot (world_of seven)) = true
     ∧ outcome seven = Normal tt).
  { subst seven. break_world w. subst. by destruct logger0. }
  destruct Hseven as (Htrace & Hdead & Hup & Hok).
  split; [|split; [done|]].
  - subst six. break_world w. subst. by destruct logger0.
  - subst ever. change (EvOpen :: repeat EvTimer 6 ++ evs)
      with ((EvOpen :: repeat EvTimer 6) ++ evs).
    rewrite run_app. unfold bind.
    change (run (EvOpen :: repeat EvTimer 6) w) with seven.
    clearbody seven. destruct seven as [[c w7] t7].
    unfold outcome, world_of, trace_of in *; simpl in *. subst c.
    destruct (keeps_run timers_dead quiet evs step_keeps_dead w7) as [_ Hquiet];
      [done|].
    destruct (quiet_counts _ Hquiet) as [Hp Ht].
    unfold trace_of in Hp, Ht.
    destruct (run evs w7) as [[r w8] t8]; simpl in *.
    rewrite !count_of_app, Hp, Ht, Htrace.
    by destruct (logger (bot w)).
Qed.

(** Claim C2, in the form that holds of the code. On a started bot whose counter is 0, along the open
    signal followed by any sequence of heartbeat ticks and liveness
    replies: the counter never exceeds the number of probes sent since the
    most recent reply (since the beginning when there was none), and it is
    0 right after a reply. The statement holds at the end of every
    sequence, hence at every point of every sequence. *)
Theorem C2_counter_bounded_by_probes_sent (w : World) (beats : list Beat) :
  is_started w = true →
  heartbeatTimes (bot w) = 0%nat →
  let j := journal (EvOpen :: map beat_event beats) w in
  (heartbeatTimes (bot j.2) ≤ sent_since_reply j.1)%nat
  ∧ (last beats = Some Reply → heartbeatTimes (bot j.2) = 0%nat).
Proof.
  intros Hs Hhb j. subst j. rewrite journal_cons. cbn [fst snd].
  destruct (step_tick_counts EvOpen w (or_intror eq_refl)) as (_ & Hopen & Hsame).
  assert (Hs' : is_started (world_of (step EvOpen w)) = true)
    by (by rewrite (same_setup_started _ _ Hsame)).
  split.
  - unfold sent_since_reply. cbn [foldl fst snd is_reply].
    erewrite journal_beats_counter; [done | done |].
    by rewrite Hopen, Hhb.
  - intros Hlast. by apply journal_beats_reply.
Qed.

(** Claim C3. Processing a frame whose text is exactly PONG sets the
    counter to 0 and returns; the only call it makes is the debug log of
    the frame, so nothing is posted to user-message or command-message.
    And no event other than such a frame takes a counter that is not 0
    back to 0: not the open signal, a timer tick, another frame, start,
    stop or subscribe. *)
Theorem C3_only_reply_resets_counter (w : World) (l : Logger) :
  logger (bot w) = Some l →
  onWebsocketMsg "PONG" w
  = (Normal tt, set_bot (with_heartbeatTimes 0) w, [Log debug (LogText "PONG")])
  ∧ heartbeatTimes (bot (world_of (onWebsocketMsg "PONG" w))) = 0%nat
  ∧ ∀ ev, heartbeatTimes (bot w) ≠ 0%nat →
          heartbeatTimes (bot (world_of (step ev w))) = 0%nat →
          ev = EvMessage "PONG".
Proof.
  intros Hl. rewrite (onWebsocketMsg_PONG w l Hl). split; [done|].
  split; [by break_world w|].
  intros ev Hmissed Hzero.
  assert (Hne : ev ≠ EvMessage "PONG" → False).
  { intros Hev. by destruct (step_keeps_missed ev Hev w Hmissed) as [Hkeep _]. }
  destruct ev; try (exfalso; by apply Hne).
  destruct (String.eqb_spec data "PONG") as [->|Hdata]; [done|].
  exfalso. apply Hne. congruence.
Qed.

(** Claim C4. A frame that starts with an opening brace, ends with a
    closing brace and fails to decode is logged (the frame at debug level,
    the decoding error at error level) and dropped: processing returns
    normally, posts nothing, and leaves the whole state of the bot, the
    open flag and the counter included, as it was. *)
Theorem C4_undecodable_frame_logged_and_dropped (w : World) (l : Logger) (msg : string) :
  logger (bot w) = Some l →
  startsWith "{" msg = true →
  endsWith "}" msg = true →
  JSON_parse msg = None →
  onWebsocketMsg msg w
  = (Normal tt, w, [Log debug (LogText msg); Log error (LogExn (SyntaxError msg))]).
Proof.
  intros Hl Hstart Hend Hparse.
  assert (Hpong : String.eqb msg "PONG" = false).
  { destruct (String.eqb_spec msg "PONG") as [->|]; [done|done]. }
  unfold onWebsocketMsg. unfold bind at 1.
  rewrite (logger_bang_eq w l _ _ Hl), Hpong, Hstart, Hend. cbn [andb].
  unfold try_catch, bind at 1, lift at 1. rewrite Hparse.
  by rewrite (logger_bang_eq w l _ _ Hl).
Qed.

(** Claim C6. [stop] posts the topic it posts before stopping (the
    code names it before-start), then calls close on the transport exactly
    when the open flag is set, then posts after-stop, and returns normally
    with the state unchanged. On a bot whose open signal never fired it
    makes no close call and raises nothing. *)
Theorem C6_stop_closes_only_an_opened_transport (w : World) :
  stop w
  = (Normal tt, w,
     [Post "before-start" [ArgBot]]
     ++ (if wsOpened (bot w) then [WsClose] else [])
     ++ [Post "after-stop" [ArgBot]])
  ∧ (wsOpened (bot w) = false →
     stop w = (Normal tt, w, [Post "before-start" [ArgBot]; Post "after-stop" [ArgBot]])
     ∧ count_of is_close (trace_of (stop w)) = 0%nat).
Proof.
  split; [apply stop_eq|]. intros Hclosed. rewrite stop_eq, Hclosed. by split.
Qed.

(** Claim C7, in the form that holds of the code. Every frame that
    reaches the callback bound to the transport's message signal is first
    posted on the bus, on the topic websocket-message, a frame with
    payload PONG like any other. On a
    started bot such a frame is posted on that topic and on no other: the
    [onWebsocketMsg] listener of the topic resets the counter and posts
    nothing further. *)
Theorem C7_reply_is_posted_on_websocket_message_only (w : World) (data : string) :
  (∃ rest, trace_of (on_message data w)
           = Post "websocket-message" [ArgBot; ArgFrame data] :: rest)
  ∧ (is_started w = true →
     let r := step (EvMessage "PONG") w in
     (∃ rest, trace_of r = Post "websocket-message" [ArgBot; ArgFrame "PONG"] :: rest)
     ∧ Forall (fun e => ∀ topic, posted_topic e = Some topic →
                                 topic = "websocket-message") (trace_of r)
     ∧ heartbeatTimes (bot (world_of r)) = 0%nat).
Proof.
  split.
  - unfold on_message, detached, try_catch. rewrite post_bind.
    destruct (bind (gets _) _ w) as [[[[]|e|] w1] t1]; simpl; eauto.
  - intros Hs r. destruct (step_reply w Hs) as (_ & Hw & Ht & Hhead).
    fold r in Hw, Ht, Hhead. repeat split; [done| |].
    + eapply Forall_impl; [exact Ht|].
      intros e [-> | ->] topic Htopic; simpl in Htopic; congruence.
    + rewrite Hw. by break_world w.
Qed.


(** Claim C9, in the form that holds of the code. With a logger in
    place, processing never raises, whatever the frame. An empty frame is
    logged at debug level and nothing more. For a frame that decodes as an object: without a
    discriminator (or with one that is neither 5 nor 50) nothing is posted;
    with discriminator 5, when [data] or [data.user_info] is missing the
    [TypeError] is logged at error level and nothing is posted, otherwise
    user-message is posted with [data.user_info.user_base_info], be it
    [undefined], and the wrapped [data]; with discriminator 50, when [data]
    is missing the [TypeError] is logged and nothing is posted, otherwise
    command-message is posted with [data.sender_info], be it [undefined],
    and [data]. The state of the bot is unchanged in each of these cases. *)
Theorem C9_partial_frames_never_raise (w : World) (l : Logger) (msg : string) :
  logger (bot w) = Some l →
  outcome (onWebsocketMsg msg w) = Normal tt
  ∧ (msg = "" → onWebsocketMsg msg w = (Normal tt, w, [Log debug (LogText msg)]))
  ∧ (∀ fields,
       startsWith "{" msg = true →
       endsWith "}" msg = true →
       JSON_parse msg = Some (VObj fields) →
       let type := field (VObj fields) f_type in
       let data := field (VObj fields) f_data in
       onWebsocketMsg msg w
       = (Normal tt, w,
          Log debug (LogText msg)
          :: if strict_eq_string type "5" then
               if nullish data then
                 [Log error (LogExn (TypeError "user_info"))]
               else if nullish (field data f_user_info) then
                 [Log error (LogExn (TypeError "user_base_info"))]
               else
                 match UserImMessageImpl_raises data with
                 | Some e => [Log error (LogExn e)]
                 | None =>
                     [Post "user-message"
                        [ArgBot;
                         ArgValue (field (field data f_user_info) f_user_base_info);
                         ArgUserImMessage data]]
                 end
             else if strict_eq_string type "50" then
               if nullish data then
                 [Log error (LogExn (TypeError "sender_info"))]
               else
                 [Post "command-message"
                    [ArgBot; ArgValue (field data f_sender_info); ArgValue data]]
             else [])).
Proof.
  intros Hl.
  assert (Hcatch : ∀ e, logger_bang error (LogExn e) w
                        = (Normal tt, w, [Log error (LogExn e)]))
    by (intros e; by apply (logger_bang_eq w l)).
  split; [|split].
  - unfold onWebsocketMsg. unfold bind at 1. rewrite (logger_bang_eq w l _ _ Hl).
    destruct (String.eqb msg "PONG"); [done|].
    destruct (startsWith "{" msg && endsWith "}" msg); [|done].
    unfold try_catch, bind, lift, emit, ret, outcome.
    destruct (JSON_parse msg) as [v|]; [|by rewrite Hcatch].
    destruct (get v f_type) as [type| |] eqn:Htype; [|by rewrite Hcatch|by destruct v].
    destruct (strict_eq_string type "5").
    { destruct (get v f_data) as [data| |] eqn:Hdata; [|by rewrite Hcatch|by destruct v].
      destruct (get data f_user_info) as [ui| |] eqn:Hui;
        [|by rewrite Hcatch|by destruct data].
      destruct (get ui f_user_base_info) as [user| |] eqn:Huser;
        [|by rewrite Hcatch|by destruct ui].
      destruct (UserImMessageImpl_raises data); [by rewrite Hcatch|done]. }
    destruct (strict_eq_string type "50"); [|done].
    destruct (get v f_data) as [data| |] eqn:Hdata; [|by rewrite Hcatch|by destruct v].
    destruct (get data f_sender_info) as [user| |] eqn:Huser;
      [done|by rewrite Hcatch|by destruct data].
  - intros ->. unfold onWebsocketMsg. unfold bind at 1.
    by rewrite (logger_bang_eq w l _ _ Hl).
  - intros fields Hstart Hend Hparse type data. subst type data.
    assert (Hpong : String.eqb msg "PONG" = false).
    { destruct (String.eqb_spec msg "PONG") as [->|]; [done|done]. }
    unfold onWebsocketMsg. unfold bind at 1.
    rewrite (logger_bang_eq w l _ _ Hl), Hpong, Hstart, Hend. cbn [andb].
    unfold try_catch, bind, lift, emit, ret. rewrite Hparse.
    change (get (VObj fields) f_type) with (Normal (field (VObj fields) f_type)).
    change (get (VObj fields) f_data) with (Normal (field (VObj fields) f_data)).
    generalize (field (VObj fields) f_type) as type.
    generalize (field (VObj fields) f_data) as data. intros data type.
    destruct (strict_eq_string type "5").
    { destruct data as [| | | | | |fs]; simpl; try (by rewrite Hcatch).
      change (default VUndefined (lookup_field "user_info" fs))
        with (field (VObj fs) f_user_info).
      generalize (field (VObj fs) f_user_info) as ui. intros ui.
      destruct ui; simpl; try (by rewrite Hcatch);
        destruct (UserImMessageImpl_raises (VObj fs)); simpl;
        try (by rewrite Hcatch); done. }
    destruct (strict_eq_string type "50"); [|done].
    destruct data; simpl; try (by rewrite Hcatch); done.
Qed.

(** Claim C10. The open signal sets the open flag, and no event
    clears it: after the open signal and any sequence of events (stops and
    the termination by the heartbeat among them) the flag is still set,
    and a call of [stop] then still calls close on the transport. *)
Theorem C10_open_flag_is_never_cleared (w : World) (evs : list Event) :
  let opened := world_of (step EvOpen w) in
  let later := world_of (run evs opened) in
  wsOpened (bot opened) = true
  ∧ wsOpened (bot later) = true
  ∧ count_of is_close (trace_of (stop later)) = 1%nat.
Proof.
  intros opened later.
  assert (Hopened : wsOpened (bot opened) = true).
  { subst opened. rewrite step_open_eq. destruct (wsOpened (bot w)) eqn:Ho; [done|].
    rewrite ping_eq. break_world w. by destruct (5 <? heartbeatTimes0)%nat. }
  assert (Hlater : wsOpened (bot later) = true).
  { by destruct (keeps_run _ _ evs step_keeps_opened opened Hopened). }
  repeat split; [done..|].
  by rewrite stop_eq, Hlater.
Qed.

(** ** Further properties of the class *)

(** *** Frames *)

(** How [onWebsocketMsg] ends: normally with a logger, by the [TypeError]
    of reading [debug] from [undefined] without one. *)
Lemma onWebsocketMsg_outcome msg w :
  outcome (onWebsocketMsg msg w)
  = match logger (bot w) with
    | Some _ => Normal tt
    | None => Thrown (TypeError "debug")
    end.
Proof.
  unfold onWebsocketMsg. unfold bind at 1.
  destruct (logger (bot w)) as [l|] eqn:Hl.
  2: { unfold logger_bang. rewrite gets_bind, Hl. done. }
  assert (Hcatch : ∀ e, logger_bang error (LogExn e) w
                        = (Normal tt, w, [Log error (LogExn e)]))
    by (intros e; by apply (logger_bang_eq w l)).
  rewrite (logger_bang_eq w l _ _ Hl).
  destruct (String.eqb msg "PONG"); [done|].
  destruct (startsWith "{" msg && endsWith "}" msg); [|done].
  unfold try_catch, post, bind, lift, emit, gets, ret, outcome.
  destruct (JSON_parse msg) as [v|]; [|by rewrite Hcatch].
  destruct (get v f_type) as [type| |] eqn:Htype; [|by rewrite Hcatch|by destruct v].
  destruct (strict_eq_string type "5").
  { destruct (get v f_data) as [data| |] eqn:Hdata; [|by rewrite Hcatch|by destruct v].
    destruct (get data f_user_info) as [ui| |] eqn:Hui;
      [|by rewrite Hcatch|by destruct data].
    destruct (get ui f_user_base_info) as [user| |] eqn:Huser;
      [|by rewrite Hcatch|by destruct ui].
    destruct (UserImMessageImpl_raises data); [by rewrite Hcatch|done]. }
  destruct (strict_eq_string type "50"); [|done].
  destruct (get v f_data) as [data| |] eqn:Hdata; [|by rewrite Hcatch|by destruct v].
  destruct (get data f_sender_info) as [user| |] eqn:Huser;
    [done|by rewrite Hcatch|by destruct data].
Qed.

(** One frame, at most one event: [onWebsocketMsg] posts nothing, or posts
    once, and then the frame is brace-shaped, it decodes, and the topic is
    user-message for the discriminator 5 and command-message for the
    discriminator 50. It never posts for a frame that is not brace-shaped
    (text around the braces included) or that does not decode. *)
Theorem onWebsocketMsg_posts_at_most_once (w : World) (msg : string) :
  match omap posted_topic (trace_of (onWebsocketMsg msg w)) with
  | [] => True
  | [topic] =>
      startsWith "{" msg = true
      ∧ endsWith "}" msg = true
      ∧ ∃ v, JSON_parse msg = Some v
             ∧ (topic = "user-message" ∧ strict_eq_string (field v f_type) "5" = true
                ∨ topic = "command-message"
                  ∧ strict_eq_string (field v f_type) "50" = true)
  | _ => False
  end.
Proof.
  unfold onWebsocketMsg. unfold bind at 1.
  destruct (logger (bot w)) as [l|] eqn:Hl.
  2: { unfold logger_bang. rewrite gets_bind, Hl. done. }
  assert (Hcatch : ∀ e, logger_bang error (LogExn e) w
                        = (Normal tt, w, [Log error (LogExn e)]))
    by (intros e; by apply (logger_bang_eq w l)).
  rewrite (logger_bang_eq w l _ _ Hl).
  destruct (String.eqb msg "PONG"); [done|].
  destruct (startsWith "{" msg) eqn:Hstart; [|done].
  destruct (endsWith "}" msg) eqn:Hend; [|done]. cbn [andb].
  unfold try_catch, post, bind, lift, emit, gets, ret, trace_of.
  destruct (JSON_parse msg) as [v|] eqn:Hparse; [|by rewrite Hcatch].
  destruct (get v f_type) as [type| |] eqn:Htype; [|by rewrite Hcatch|by destruct v].
  assert (Hfield : field v f_type = type) by (unfold field; by rewrite Htype).
  destruct (strict_eq_string type "5") eqn:H5.
  { destruct (get v f_data) as [data| |] eqn:Hdata; [|by rewrite Hcatch|by destruct v].
    destruct (get data f_user_info) as [ui| |] eqn:Hui;
      [|by rewrite Hcatch|by destruct data].
    destruct (get ui f_user_base_info) as [user| |] eqn:Huser;
      [|by rewrite Hcatch|by destruct ui].
    destruct (UserImMessageImpl_raises data); [by rewrite Hcatch|].
    simpl. repeat split. exists v. rewrite Hfield. split; [done|]. by left. }
  destruct (strict_eq_string type "50") eqn:H50; [|done].
  destruct (get v f_data) as [data| |] eqn:Hdata; [|by rewrite Hcatch|by destruct v].
  destruct (get data f_sender_info) as [user| |] eqn:Huser;
    [|by rewrite Hcatch|by destruct data].
  simpl. repeat split. exists v. rewrite Hfield. split; [done|]. by right.
Qed.

Lemma times_normal {I : World -> Prop} (p : Effect -> bool) (c : nat) (m : Prog unit) :
  (∀ w, I w → outcome (m w) = Normal tt
              ∧ count_of p (trace_of (m w)) = c
              ∧ I (world_of (m w))) →
  ∀ n w, I w →
    outcome (times n m w) = Normal tt
    ∧ count_of p (trace_of (times n m w)) = (n * c)%nat
    ∧ I (world_of (times n m w)).
Proof.
  intros Hm. induction n as [|n IH]; intros w Hw; [done|].
  simpl times. unfold bind.
  destruct (Hm w Hw) as (Ho & Hc & Hi). unfold outcome, world_of, trace_of in *.
  destruct (m w) as [[o w1] t1]; simpl in *. subst o.
  destruct (IH w1 Hi) as (Ho' & Hc' & Hi'). unfold outcome, world_of, trace_of in *.
  destruct (times n m w1) as [[o w2] t2]; simpl in *.
  rewrite count_of_app. repeat split; [done|lia|done].
Qed.

Lemma times_finishes (m : Prog unit) :
  (∀ w, outcome (m w) ≠ Unfinished) → ∀ n w, outcome (times n m w) ≠ Unfinished.
Proof.
  intros Hm. induction n as [|n IH]; intros w; [done|].
  simpl times. unfold bind. specialize (Hm w). unfold outcome in *.
  destruct (m w) as [[[[]|e|] w1] t1]; simpl in *; try done.
  specialize (IH w1). by destruct (times n m w1) as [[o w2] t2].
Qed.

(** One callback, one post: the callback bound to the message signal posts
    the frame on websocket-message once, whatever the listeners do with
    it, and never fails. *)
Lemma on_message_posts_once data w :
  outcome (on_message data w) = Normal tt
  ∧ count_of is_frame_post (trace_of (on_message data w)) = 1%nat
  ∧ ws_message_listeners (bot (world_of (on_message data w)))
    = ws_message_listeners (bot w).
Proof.
  unfold on_message, detached, try_catch. rewrite post_bind, gets_bind.
  set (k := length _).
  assert (Hkeep : keeps (fun w' => ws_message_listeners (bot w')
                                   = ws_message_listeners (bot w))
                    (fun e => is_frame_post e = false)
                    (times k (onWebsocketMsg data))).
  { unfold onWebsocketMsg. keeps_all; keeps_side. }
  destruct (Hkeep w eq_refl) as [Hn Hquiet].
  apply count_of_none in Hquiet.
  pose proof (times_finishes (onWebsocketMsg data)) as Hfin.
  specialize (Hfin (fun w' => ltac:(rewrite onWebsocketMsg_outcome;
                                     by destruct (logger (bot w')))) k w).
  unfold outcome, world_of, trace_of in *.
  destruct (times k (onWebsocketMsg data) w) as [[[[]|e|] w1] t1]; simpl in *;
    [| |done].
  - change (Post ?a ?b :: t1) with ([Post a b] ++ t1).
    by rewrite count_of_app, Hquiet.
  - change (Post ?a ?b :: t1 ++ ?r) with ([Post a b] ++ t1 ++ r).
    by rewrite !count_of_app, Hquiet.
Qed.

(** A frame is posted on websocket-message once for each callback bound to
    the message signal, and [start] binds one more each time it gets as
    far as line 127 (it does whenever it returns normally), and none when
    it does not: a bot started twice posts every frame twice. *)
Theorem frame_posted_once_per_start
    (w : World) (data : string) (clock : nat -> string) (fuel : nat) (p : option string) :
  count_of is_frame_post (trace_of (step (EvMessage data) w))
  = ws_message_listeners (bot w)
  ∧ ws_message_listeners (bot (world_of (start clock fuel p w)))
    = (ws_message_listeners (bot w)
       + match outcome (start clock fuel p w) with
         | Normal _ => 1
         | _ => 0
         end)%nat.
Proof.
  split.
  - unfold step. rewrite gets_bind.
    destruct (times_normal (I := fun w' => ws_message_listeners (bot w')
                                           = ws_message_listeners (bot w))
                is_frame_post 1 (on_message data)) with
      (n := ws_message_listeners (bot w)) (w := w) as (_ & Hc & _); [|done|lia].
    intros w' Hw'. destruct (on_message_posts_once data w') as (Ho & Hc & Hn).
    repeat split; [done|done|congruence].
  - rewrite start_eq, emit_bind. unfold bind.
    set (w1 := set_bot _ w).
    destruct (rotate_logs_keeps_bot clock fuel (logs_dir w p)
                (bot w1) (timers w1) (cwd w1) w1) as [(Hbot & _ & _) _]; [done|].
    unfold world_of in Hbot.
    destruct (rotate_logs clock fuel (logs_dir w p) w1) as [[[[]|e|] w2] t2];
      cbn [fst snd] in Hbot.
    + rewrite bind_handlers_eq. unfold outcome, world_of. simpl.
      rewrite Hbot. subst w1. break_world w. lia.
    + unfold outcome, world_of. simpl. rewrite Hbot. subst w1. break_world w. lia.
    + unfold outcome, world_of. simpl. rewrite Hbot. subst w1. break_world w. lia.
Qed.

(** *** The heartbeat and the public methods *)

Lemma run_cons ev evs w : run (ev :: evs) w = bind (step ev) (fun _ => run evs) w.
Proof. done. Qed.

(** [stop] neither cancels the pending heartbeat tick nor touches the bot:
    a bot that is stopped in the middle of any sequence of events ends in
    the state it would have reached without the [stop], having made the
    same calls on the transport's send and terminate and on the timer
    queue. The heartbeat of a stopped bot goes on. *)
Theorem stop_leaves_the_heartbeat_running (w : World) (evs1 evs2 : list Event) :
  let stopped := run (evs1 ++ EvStop :: evs2) w in
  let unstopped := run (evs1 ++ evs2) w in
  outcome stopped = outcome unstopped
  ∧ world_of stopped = world_of unstopped
  ∧ List.filter is_transport_call (trace_of stopped)
    = List.filter is_transport_call (trace_of unstopped).
Proof.
  intros stopped unstopped; subst stopped unstopped.
  rewrite !run_app. unfold bind.
  destruct (run evs1 w) as [[[[]|e|] w1] t1]; [|done|done].
  rewrite run_cons. change (step EvStop) with stop.
  unfold bind. rewrite stop_eq.
  destruct (run evs2 w1) as [[o w2] t2].
  unfold outcome, world_of, trace_of. simpl.
  rewrite !List.filter_app. by destruct (wsOpened (bot w1)).
Qed.

Lemma step_unstarted ev w :
  is_start ev = false →
  ws_message_listeners (bot w) = 0%nat →
  let r := step ev w in
  outcome r = Normal tt
  ∧ heartbeatTimes (bot (world_of r))
    = (heartbeatTimes (bot w) + count_of is_probe (trace_of r))%nat
  ∧ ws_message_listeners (bot (world_of r)) = 0%nat
  ∧ count_of is_frame_post (trace_of r) = 0%nat.
Proof.
  intros Hev Hw r; subst r. destruct ev; try done.
  - destruct (step_tick_counts EvOpen w) as (Ho & Hc & _ & Hn & _); [by right|].
    assert (Hk : keeps (fun _ => True) (fun e => is_frame_post e = false) (step EvOpen))
      by (unfold step; keeps_all; keeps_side).
    destruct (Hk w I) as [_ Hq]. apply count_of_none in Hq.
    repeat split; [done|done|congruence|done].
  - destruct (step_tick_counts EvTimer w) as (Ho & Hc & _ & Hn & _); [by left|].
    assert (Hk : keeps (fun _ => True) (fun e => is_frame_post e = false) (step EvTimer))
      by (unfold step; keeps_all; keeps_side).
    destruct (Hk w I) as [_ Hq]. apply count_of_none in Hq.
    repeat split; [done|done|congruence|done].
  - unfold step. rewrite gets_bind, Hw.
    unfold outcome, world_of, trace_of, count_of. simpl. repeat split; lia.
  - change (step EvStop) with stop. rewrite stop_eq.
    unfold outcome, world_of, trace_of, count_of. simpl.
    destruct (wsOpened (bot w)); simpl; repeat split; lia.
Qed.

(** Until [start] has completed nothing is bound to the transport's
    message signal, so a liveness reply that arrives before [start] is
    lost: from construction on, through any events other than [start],
    no frame is posted and the counter is the number of probes sent,
    whatever replies came in. *)
Theorem replies_before_start_are_lost
    (c : BotConfig) (dir : string) (fs : gmap string Node) (evs : list Event) :
  Forall (fun ev => is_start ev = false) evs →
  let r := run evs (new_HeyBoxBot c dir fs) in
  outcome r = Normal tt
  ∧ heartbeatTimes (bot (world_of r)) = count_of is_probe (trace_of r)
  ∧ count_of is_frame_post (trace_of r) = 0%nat.
Proof.
  intros Hevs r; subst r.
  assert (Hgen : ∀ w, ws_message_listeners (bot w) = 0%nat →
            outcome (run evs w) = Normal tt
            ∧ heartbeatTimes (bot (world_of (run evs w)))
              = (heartbeatTimes (bot w) + count_of is_probe (trace_of (run evs w)))%nat
            ∧ count_of is_frame_post (trace_of (run evs w)) = 0%nat).
  { induction Hevs as [|ev evs Hev _ IH]; intros w Hw.
    - unfold outcome, world_of, trace_of, count_of. simpl. repeat split; lia.
    - rewrite run_cons. unfold bind.
      destruct (step_unstarted ev w Hev Hw) as (Ho & Hc & Hn & Hp).
      unfold outcome, world_of, trace_of in *.
      destruct (step ev w) as [[o w1] t1]; simpl in *. subst o.
      destruct (IH w1 Hn) as (Ho' & Hc' & Hp').
      unfold outcome, world_of, trace_of in *.
      destruct (run evs w1) as [[o w2] t2]; simpl in *.
      rewrite !count_of_app. repeat split; [done|lia|lia]. }
  destruct (Hgen (new_HeyBoxBot c dir fs) eq_refl) as (Ho & Hc & Hp).
  repeat split; [done| |done]. by rewrite Hc.
Qed.

Lemma run_beats (beats : list Beat) :
  ∀ w, is_started w = true → wsOpened (bot w) = true → timers w = 1%nat →
    let r := run (map beat_event beats) w in
    if replies_in_time 6 (heartbeatTimes (bot w)) beats then
      count_of is_terminate (trace_of r) = 0%nat
      ∧ timers (world_of r) = 1%nat
      ∧ count_of is_probe (trace_of r) = ticks beats
    else
      count_of is_terminate (trace_of r) = 1%nat
      ∧ timers (world_of r) = 0%nat.
Proof.
  induction beats as [|[] beats IH]; intros w Hs Ho Ht r; subst r.
  - unfold world_of, trace_of, count_of. simpl. done.
  - cbn [map beat_event replies_in_time]. rewrite run_cons. unfold bind.
    rewrite step_timer_eq, Ht, ping_eq.
    replace (heartbeatTimes (bot (set_timers (λ _ : nat, 0%nat) w)))
      with (heartbeatTimes (bot w)) by by break_world w.
    destruct (Nat.ltb_spec 5 (heartbeatTimes (bot w))) as [Hlt|Hge].
    + replace (heartbeatTimes (bot w) <? 6)%nat with false
        by (symmetry; apply Nat.ltb_ge; lia).
      cbn [andb].
      destruct (keeps_run timers_dead quiet (map beat_event beats) step_keeps_dead
                  (set_timers (λ _ : nat, 0%nat) w)) as [[Hd _] Hq].
      { split; by break_world w. }
      apply quiet_counts in Hq as [_ Hq].
      unfold world_of, trace_of in *.
      destruct (run (map beat_event beats) _) as [[o w2] t2]; simpl in *.
      rewrite count_of_app, Hq.
      split; [|done]. by destruct (logger (bot _)).
    + replace (heartbeatTimes (bot w) <? 6)%nat with true
        by (symmetry; apply Nat.ltb_lt; lia).
      cbn [andb].
      set (w1 := set_timers S _).
      specialize (IH w1).
      replace (heartbeatTimes (bot w1)) with (S (heartbeatTimes (bot w))) in IH
        by (subst w1; break_world w; lia).
      assert (Hs1 : is_started w1 = true) by (subst w1; by break_world w).
      assert (Ho1 : wsOpened (bot w1) = true) by (subst w1; by break_world w).
      assert (Ht1 : timers w1 = 1%nat) by (subst w1; by break_world w).
      specialize (IH Hs1 Ho1 Ht1). cbn zeta in IH.
      unfold world_of, trace_of in *.
      destruct (run (map beat_event beats) w1) as [[o w2] t2]; simpl in *.
      change (WsSend "PING" :: SetTimeout 30000 :: t2)
        with ([WsSend "PING"; SetTimeout 30000] ++ t2).
      rewrite !count_of_app.
      destruct (replies_in_time 6 (S (heartbeatTimes (bot w))) beats).
      * destruct IH as (Hc & Htm & Hp). rewrite Hc, Hp. done.
      * destruct IH as (Hc & Htm). by rewrite Hc.
  - cbn [map beat_event replies_in_time]. rewrite run_cons. unfold bind.
    destruct (step_reply w Hs) as (Hout & Hw & Htr & _).
    unfold outcome, world_of, trace_of in *.
    destruct (step (EvMessage "PONG") w) as [[o w1] t1]; simpl in *. subst o w1.
    assert (Hnone : count_of is_terminate t1 = 0%nat ∧ count_of is_probe t1 = 0%nat).
    { split; apply count_of_none; eapply Forall_impl; try exact Htr;
        by intros e [-> | ->]. }
    destruct Hnone as [Hc1 Hp1].
    specialize (IH (reset w)).
    assert (Hs1 : is_started (reset w) = true) by by break_world w.
    assert (Ho1 : wsOpened (bot (reset w)) = true) by by break_world w.
    assert (Ht1 : timers (reset w) = 1%nat) by by break_world w.
    specialize (IH Hs1 Ho1 Ht1). cbn zeta in IH.
    replace (heartbeatTimes (bot (reset w))) with 0%nat in IH by by break_world w.
    unfold world_of, trace_of in *.
    destruct (run (map beat_event beats) (reset w)) as [[o w2] t2]; simpl in *.
    rewrite !count_of_app, Hc1, ?Hp1.
    destruct (replies_in_time 6 0 beats); [|done].
    destruct IH as (Hc & Htm & Hp). rewrite Hp. unfold ticks. simpl. done.
Qed.

(** The heartbeat of a started bot, from the open signal on, decided by the
    replies alone: as long as every run of ticks without a reply is short
    enough for the counter to stay within 5 when a tick comes due (the
    open signal's own probe counts as the first), the transport is never
    terminated, a tick stays pending and every tick sends its probe; as
    soon as one run is longer the transport is terminated, once, and no
    tick is pending at the end. *)
Theorem heartbeat_decided_by_replies (w : World) (beats : list Beat) :
  is_started w = true →
  wsOpened (bot w) = false →
  heartbeatTimes (bot w) = 0%nat →
  timers w = 0%nat →
  let r := run (EvOpen :: map beat_event beats) w in
  if replies_in_time 6 1 beats then
    count_of is_terminate (trace_of r) = 0%nat
    ∧ timers (world_of r) = 1%nat
    ∧ count_of is_probe (trace_of r) = S (ticks beats)
  else
    count_of is_terminate (trace_of r) = 1%nat
    ∧ timers (world_of r) = 0%nat.
Proof.
  intros Hs Ho Hh Ht r; subst r.
  rewrite run_cons. unfold bind. rewrite step_open_eq, Ho, ping_eq.
  replace (heartbeatTimes (bot (set_bot (with_wsOpened true) w))) with 0%nat
    by by break_world w.
  change (5 <? 0)%nat with false. cbn iota.
  set (w1 := set_timers S _).
  pose proof (run_beats beats w1) as Hrun.
  replace (heartbeatTimes (bot w1)) with 1%nat in Hrun
    by (subst w1; break_world w; lia).
  assert (Hs1 : is_started w1 = true) by (subst w1; by break_world w).
  assert (Ho1 : wsOpened (bot w1) = true) by (subst w1; by break_world w).
  assert (Ht1 : timers w1 = 1%nat) by (subst w1; break_world w; lia).
  specialize (Hrun Hs1 Ho1 Ht1). cbn zeta in Hrun.
  unfold world_of, trace_of in *.
  destruct (run (map beat_event beats) w1) as [[o w2] t2]; simpl in *.
  change (WsSend "PING" :: SetTimeout 30000 :: t2)
    with ([WsSend "PING"; SetTimeout 30000] ++ t2).
  rewrite !count_of_app.
  destruct (replies_in_time 6 1 beats).
  - destruct Hrun as (Hc & Htm & Hp). rewrite Hc, Hp. done.
  - destruct Hrun as (Hc & Htm). by rewrite Hc.
Qed.

(** *** The files [start] touches *)

Lemma latest_is_not_the_directory logPath : logPath +:+ "/latest.log" ≠ logPath.
Proof.
  intros H. apply (f_equal String.length) in H.
  rewrite string_length_app in H. simpl in H. lia.
Qed.

Lemma free_log_name_post clock logPath fuel :
  ∀ count w,
    let r := free_log_name clock logPath fuel count w in
    world_of r = w ∧ trace_of r = []
    ∧ (outcome r = Unfinished
       ∨ ∃ k, outcome r = Normal (log_name clock logPath k)
              ∧ files w !! log_name clock logPath k = None).
Proof.
  induction fuel as [|fuel IH]; intros count w r; subst r; simpl;
    unfold existsSync; rewrite gets_bind;
    destruct (files w !! log_name clock logPath count) as [node|] eqn:Hn.
  - rewrite bool_decide_eq_true_2 by done. repeat split; by left.
  - rewrite bool_decide_eq_false_2 by (by intros [? ?]).
    repeat split; right; by exists count.
  - rewrite bool_decide_eq_true_2 by done. apply IH.
  - rewrite bool_decide_eq_false_2 by (by intros [? ?]).
    repeat split; right; by exists count.
Qed.

(** Lines 112-120: what the test for latest.log and the rename leave. *)
Lemma move_latest_post clock fuel logPath w :
  let latest := logPath +:+ "/latest.log" in
  let r := (ex <- existsSync latest ;;
            if ex then
              (logName <- free_log_name clock logPath fuel 0 ;;
               renameSync latest logName)
            else ret tt) w in
  files (world_of r) = files w
  ∧ (outcome r = Normal tt → files w !! latest = None)
  ∨ ∃ k node,
      files w !! latest = Some node
      ∧ files w !! log_name clock logPath k = None
      ∧ outcome r = Normal tt
      ∧ files (world_of r)
        = <[log_name clock logPath k := node]> (delete latest (files w)).
Proof.
  intros latest r; subst r. unfold existsSync. rewrite gets_bind.
  destruct (files w !! latest) as [node|] eqn:Hlatest.
  - rewrite bool_decide_eq_true_2 by done. unfold bind.
    destruct (free_log_name_post clock logPath fuel 0 w) as (Hw & _ & Hout).
    unfold outcome, world_of in *.
    destruct (free_log_name clock logPath fuel 0 w) as [[o w1] t1].
    simpl in *. subst w1. destruct Hout as [-> | (k & -> & Hfree)].
    + left. by split.
    + right. exists k, node. unfold renameSync. rewrite gets_bind, Hlatest.
      unfold modify. simpl. repeat split; try done; by break_world w.
  - rewrite bool_decide_eq_false_2 by (by intros [? ?]). left. by split.
Qed.

(** Lines 111-120 as a whole: the directory is made when it is missing
    and can be made, and then latest.log, when there is one, moves to a
    name that was free, or the loop is still looking for one. *)
Lemma rotate_logs_post clock fuel logPath w :
  let latest := logPath +:+ "/latest.log" in
  let r := rotate_logs clock fuel logPath w in
  ∃ m0,
    (m0 = files w
     ∨ m0 = <[logPath := Dir]> (files w) ∧ files w !! logPath = None)
    ∧ (outcome r = Normal tt → is_Some (m0 !! logPath))
    ∧ (files (world_of r) = m0
       ∧ (outcome r = Normal tt → m0 !! latest = None)
       ∨ ∃ k node,
           m0 !! latest = Some node
           ∧ m0 !! log_name clock logPath k = None
           ∧ outcome r = Normal tt
           ∧ files (world_of r)
             = <[log_name clock logPath k := node]> (delete latest m0)).
Proof.
  intros latest r. unfold rotate_logs in r.
  rewrite (eq_refl : r = rotate_logs clock fuel logPath w). clear r.
  remember (rotate_logs clock fuel logPath w) as r eqn:Hr.
  unfold rotate_logs in Hr.
  rewrite bind_assoc in Hr. unfold existsSync at 1 in Hr. rewrite gets_bind in Hr.
  destruct (files w !! logPath) as [node|] eqn:Hdir.
  - rewrite bool_decide_eq_true_2 in Hr by done. cbn [negb] in Hr.
    rewrite ret_bind in Hr. subst r.
    exists (files w). split; [by left|]. split; [by rewrite Hdir|].
    apply (move_latest_post clock fuel logPath w).
  - rewrite bool_decide_eq_false_2 in Hr by (by intros [? ?]). cbn [negb] in Hr.
    unfold mkdirSync in Hr. rewrite bind_assoc, gets_bind in Hr.
    destruct (mkdir_error (files w) logPath) as [e|] eqn:He.
    + unfold bind, throw in Hr. subst r. exists (files w).
      split; [by left|]. split; [done|]. left. by split.
    + rewrite modify_bind in Hr. subst r.
      exists (<[logPath := Dir]> (files w)). split; [by right|].
      split; [intros _; by rewrite lookup_insert_eq|].
      pose proof (move_latest_post clock fuel logPath
                    (set_files (insert logPath Dir) w)) as H.
      cbn zeta in H.
      replace (files (set_files (insert logPath Dir) w))
        with (<[logPath := Dir]> (files w)) in H by by break_world w.
      exact H.
Qed.


(** When lines 111-120 complete, the logs directory exists and holds no
    latest.log: the logger of line 121 is created in a directory whose
    latest.log has been moved away, whatever name the loop settled on. *)
Theorem logger_starts_without_latest_log
    (w : World) (clock : nat -> string) (fuel : nat) (logPath : string) :
  outcome (rotate_logs clock fuel logPath w) = Normal tt →
  is_Some (files (world_of (rotate_logs clock fuel logPath w)) !! logPath)
  ∧ files (world_of (rotate_logs clock fuel logPath w)) !! (logPath +:+ "/latest.log")
    = None.
Proof.
  intros Hout.
  destruct (rotate_logs_post clock fuel logPath w) as (m0 & _ & Hdir & Hpost).
  specialize (Hdir Hout).
  destruct Hpost as [[-> Hnone] | (k & node & Hlatest & Hfree & _ & ->)].
  - split; [done | by apply Hnone].
  - assert (Hk : log_name clock logPath k ≠ logPath +:+ "/latest.log")
      by (intros Heq; rewrite Heq in Hfree; congruence).
    split.
    + destruct (decide (log_name clock logPath k = logPath)) as [->|Hne].
      * by rewrite lookup_insert_eq.
      * rewrite lookup_insert_ne by done.
        rewrite lookup_delete_ne; [done|]. apply latest_is_not_the_directory.
    + rewrite lookup_insert_ne by done. apply lookup_delete_eq.
Qed.

(** *** The logger the frame handler relies on *)

Lemma step_keeps_logger ev : keeps logger_before_frames (fun _ => True) (step ev).
Proof.
  destruct ev as [| |data|p clock fuel| |sub];
    unfold logger_before_frames, registrations.
  1-3, 5-6: unfold step; keeps_all; keeps_side.
  intros w HJ. split; [|by apply Forall_forall].
  unfold step, detached, try_catch. rewrite start_eq, emit_bind. unfold bind.
  set (w1 := set_bot _ w).
  destruct (rotate_logs_keeps_bot clock fuel (logs_dir w p)
              (bot w1) (timers w1) (cwd w1) w1) as [(Hbot & _ & _) _]; [done|].
  unfold world_of in *.
  destruct (rotate_logs clock fuel (logs_dir w p) w1) as [[[[]|e|] w2] t2];
    cbn [fst snd] in *.
  - rewrite bind_handlers_eq. cbn [fst snd]. right. by break_world w2.
  - cbn [emit fst snd]. rewrite Hbot. subst w1. by break_world w.
  - rewrite Hbot. subst w1. by break_world w.
Qed.

(** The non-null assertions of [onWebsocketMsg] are safe: [start] creates
    the logger (line 121) before it registers [onWebsocketMsg] (line 123)
    and binds the callback to the message signal (line 127), and nothing
    takes the logger away. So from construction on, after any events,
    either nothing is bound and [onWebsocketMsg] is registered nowhere, or
    the logger exists and [onWebsocketMsg] returns normally on every
    frame. *)
Theorem logger_is_there_for_every_frame
    (c : BotConfig) (dir : string) (fs : gmap string Node)
    (evs : list Event) (data : string) :
  let w := world_of (run evs (new_HeyBoxBot c dir fs)) in
  (ws_message_listeners (bot w) = 0%nat ∧ registrations w = 0%nat)
  ∨ (is_Some (logger (bot w)) ∧ outcome (onWebsocketMsg data w) = Normal tt).
Proof.
  intros w.
  destruct (keeps_run logger_before_frames (fun _ => True) evs step_keeps_logger
              (new_HeyBoxBot c dir fs)) as [HJ _]; [by left|].
  fold w in HJ. clearbody w.
  destruct HJ as [Hn | [l Hl]]; [by left|].
  right. split; [by eexists|]. by rewrite onWebsocketMsg_outcome, Hl.
Qed.

End Bot.

(** ** The bot registry of src/index.ts *)

Lemma split_space_head s :
  ∃ rest, BlackBox.split_space s = BlackBox.until_space s :: rest.
Proof.
  induction s as [|c s [rest IH]]; simpl; [by exists []|].
  destruct (Ascii.eqb c " "); [by eexists|]. rewrite IH. by eexists.
Qed.

Lemma find_root_found node nodes :
  BlackBox.find_root (Some node) nodes = BlackBox.Returned (Some node).
Proof. induction nodes as [|n nodes IH]; simpl; done. Qed.

(** Of a command text the decorator reads the prefix and the first word
    after it, and nothing else: the text must begin with the prefix, the
    word up to the first space must neither begin with an opening brace nor
    end with a closing one, and that word alone is registered as the root,
    whatever follows it. The test of line 97 never fires ([split] gives at
    least one piece), the root handed to [register] is never [undefined],
    and an empty first word is registered like any other. *)
Theorem decorator_reads_the_first_word (prefix namespace command : string) :
  BlackBox.decorator prefix namespace command
  = if negb (startsWith prefix command) then BlackBox.Raised "Invalid command"
    else
      let word :=
        BlackBox.until_space (BlackBox.substring_from (String.length prefix) command) in
      if startsWith "{" word || endsWith "}" word then
        BlackBox.Raised "Invalid command, root node can not be argument node!"
      else BlackBox.Returned (namespace, Some (BlackBox.Literal word)).
Proof.
  unfold BlackBox.decorator. destruct (negb (startsWith prefix command)); [done|].
  cbn zeta.
  destruct (split_space_head (BlackBox.substring_from (String.length prefix) command))
    as [rest ->].
  cbn [length Nat.leb BlackBox.find_root].
  destruct (startsWith "{" _ || endsWith "}" _); [done|].
  by rewrite find_root_found.
Qed.

Lemma call_keeps_the_instance prefix c r b :
  BlackBox.instance r = Some b →
  (b < length (BlackBox.bots r))%nat →
  BlackBox.instance (BlackBox.call prefix c r) = Some b
  ∧ (b < length (BlackBox.bots (BlackBox.call prefix c r)))%nat.
Proof.
  intros Hi Hb. destruct r as [bs i]; simpl in *; subst i.
  destruct c as [|plugin|bot ns cmd|ns cmd]; simpl.
  - unfold BlackBox.getInstance; simpl. done.
  - unfold BlackBox.loadPlugin, BlackBox.getInstance, BlackBox.new_BlackBoxBot.
    destruct (BlackBox.isSingle plugin); simpl;
      rewrite ?length_alter, ?length_app; simpl; split; [done|lia|done|lia].
  - unfold BlackBox.command. destruct (BlackBox.decorator prefix ns cmd); simpl;
      rewrite ?length_alter; done.
  - unfold BlackBox.static_command, BlackBox.getInstance, BlackBox.command; simpl.
    destruct (BlackBox.decorator prefix ns cmd); simpl; rewrite ?length_alter; done.
Qed.

(** The singleton: the bot [getInstance] returns exists, and whatever is
    called afterwards (plugins loaded, single or not, commands registered
    on any bot or through the static method) [getInstance] returns that
    same bot again and constructs nothing. *)
Theorem getInstance_is_stable (prefix : string) (r : BlackBox.Runtime) (cs : list BlackBox.Call) :
  (∀ b, BlackBox.instance r = Some b → (b < length (BlackBox.bots r))%nat) →
  let first := BlackBox.getInstance r in
  let later := BlackBox.calls prefix cs first.2 in
  (first.1 < length (BlackBox.bots first.2))%nat
  ∧ BlackBox.getInstance later = (first.1, later).
Proof.
  intros Hwf first later.
  assert (H1 : BlackBox.instance first.2 = Some first.1
               ∧ (first.1 < length (BlackBox.bots first.2))%nat).
  { subst first. unfold BlackBox.getInstance.
    destruct (BlackBox.instance r) as [b|] eqn:Hi; simpl.
    - split; [done|]. by apply Hwf.
    - rewrite length_app. simpl. split; [done|lia]. }
  destruct H1 as [Hi Hb]. split; [done|].
  assert (Hgen : ∀ r0, BlackBox.instance r0 = Some first.1 →
            (first.1 < length (BlackBox.bots r0))%nat →
            BlackBox.instance (BlackBox.calls prefix cs r0) = Some first.1).
  { clear later. induction cs as [|c cs IH]; intros r0 Hi0 Hb0; [done|].
    simpl. destruct (call_keeps_the_instance prefix c r0 _ Hi0 Hb0) as [Hi1 Hb1].
    by apply IH. }
  subst later. unfold BlackBox.getInstance at 1. by rewrite (Hgen _ Hi Hb).
Qed.

Lemma call_keeps_managers_empty prefix c r :
  Forall (fun b => BlackBox.getPlugins (BlackBox.pluginManager b) = []
                   ∧ BlackBox.manager_single (BlackBox.pluginManager b) = false)
    (BlackBox.bots r) →
  Forall (fun b => BlackBox.getPlugins (BlackBox.pluginManager b) = []
                   ∧ BlackBox.manager_single (BlackBox.pluginManager b) = false)
    (BlackBox.bots (BlackBox.call prefix c r)).
Proof.
  intros H. destruct r as [bs i]; simpl in *.
  assert (Hnew : ∀ s, Forall (fun b => BlackBox.getPlugins (BlackBox.pluginManager b) = []
                        ∧ BlackBox.manager_single (BlackBox.pluginManager b) = false)
                   (bs ++ [{| BlackBox.pluginManager :=
                                {| BlackBox.plugins := [];
                                   BlackBox.manager_single := false |};
                              BlackBox.registered := s |}])).
  { intros s. apply Forall_app. split; [done|]. by repeat constructor. }
  destruct c as [|plugin|bot ns cmd|ns cmd]; simpl.
  - unfold BlackBox.getInstance; simpl. destruct i; simpl; [done|apply Hnew].
  - unfold BlackBox.loadPlugin, BlackBox.getInstance, BlackBox.new_BlackBoxBot.
    destruct (BlackBox.isSingle plugin); [|destruct i]; simpl;
      apply Forall_alter; try done; apply Hnew.
  - unfold BlackBox.command. destruct (BlackBox.decorator prefix ns cmd); simpl;
      [|done]. by apply Forall_alter.
  - unfold BlackBox.static_command, BlackBox.getInstance, BlackBox.command.
    destruct i; simpl; destruct (BlackBox.decorator prefix ns cmd); simpl;
      try apply Forall_alter; try done; apply Hnew.
Qed.

(** Loading registers nothing: [load] returns the manager untouched and no
    method calls [registerPlugin], so after any calls on the class every
    bot's [getPlugins()] is empty; and since both constructions of a bot
    leave [single] at its default, no manager is ever marked single, not
    even the one made for a single plugin. *)
Theorem loaded_plugins_are_never_registered (prefix : string) (cs : list BlackBox.Call) :
  Forall (fun b => BlackBox.getPlugins (BlackBox.pluginManager b) = []
                   ∧ BlackBox.manager_single (BlackBox.pluginManager b) = false)
    (BlackBox.bots (BlackBox.calls prefix cs BlackBox.no_bots)).
Proof.
  assert (Hgen : ∀ r,
            Forall (fun b => BlackBox.getPlugins (BlackBox.pluginManager b) = []
                             ∧ BlackBox.manager_single (BlackBox.pluginManager b) = false)
              (BlackBox.bots r) →
            Forall (fun b => BlackBox.getPlugins (BlackBox.pluginManager b) = []
                             ∧ BlackBox.manager_single (BlackBox.pluginManager b) = false)
              (BlackBox.bots (BlackBox.calls prefix cs r))).
  { induction cs as [|c cs IH]; intros r Hr; [done|].
    simpl. apply IH. by apply call_keeps_managers_empty. }
  apply Hgen. constructor.
Qed.

Lemma calls_keep_the_instance_in_range prefix cs :
  ∀ r, (∀ b, BlackBox.instance r = Some b → (b < length (BlackBox.bots r))%nat) →
       ∀ b, BlackBox.instance (BlackBox.calls prefix cs r) = Some b →
            (b < length (BlackBox.bots (BlackBox.calls prefix cs r)))%nat.
Proof.
  induction cs as [|c cs IH]; intros r Hr; [done|].
  simpl. apply IH. intros b Hb.
  destruct (BlackBox.instance r) as [b0|] eqn:Hi.
  - destruct (call_keeps_the_instance prefix c r b0 Hi (Hr _ eq_refl)) as [Hi1 Hb1].
    congruence.
  - destruct r as [bs i]; simpl in *; subst i.
    destruct c as [|plugin|bot ns cmd|ns cmd]; simpl in *.
    + injection Hb as <-. rewrite length_app. simpl. lia.
    + unfold BlackBox.loadPlugin, BlackBox.getInstance, BlackBox.new_BlackBoxBot in *.
      destruct (BlackBox.isSingle plugin); simpl in *; [done|].
      injection Hb as <-. rewrite length_alter, length_app. simpl. lia.
    + unfold BlackBox.command in *.
      destruct (BlackBox.decorator prefix ns cmd); simpl in *; done.
    + unfold BlackBox.static_command, BlackBox.getInstance, BlackBox.command in *.
      simpl in *.
      destruct (BlackBox.decorator prefix ns cmd); simpl in *;
        injection Hb as <-; rewrite ?length_alter, length_app; simpl; lia.
Qed.

(** A single plugin gets a bot of its own: whatever was called before,
    [loadPlugin] on a plugin whose [isSingle()] holds constructs a new bot,
    which is not the singleton, and leaves the singleton and every bot
    made before as they were; on any other plugin it constructs at most
    the singleton and returns it. *)
Theorem single_plugin_gets_its_own_bot
    (prefix : string) (cs : list BlackBox.Call) (plugin : BlackBox.Plugin) :
  let r := BlackBox.calls prefix cs BlackBox.no_bots in
  let loaded := BlackBox.loadPlugin plugin r in
  if BlackBox.isSingle plugin then
    loaded.1 = length (BlackBox.bots r)
    ∧ BlackBox.instance loaded.2 = BlackBox.instance r
    ∧ BlackBox.instance loaded.2 ≠ Some loaded.1
    ∧ ∃ b, BlackBox.bots loaded.2 = BlackBox.bots r ++ [b]
  else
    BlackBox.instance loaded.2 = Some loaded.1
    ∧ loaded.1 = (BlackBox.getInstance r).1.
Proof.
  intros r loaded.
  pose proof (calls_keep_the_instance_in_range prefix cs BlackBox.no_bots) as Hwf.
  fold r in Hwf. specialize (Hwf ltac:(done)).
  subst loaded. unfold BlackBox.loadPlugin, BlackBox.getInstance, BlackBox.new_BlackBoxBot.
  destruct r as [bs i]; simpl in *.
  destruct (BlackBox.isSingle plugin); simpl.
  - repeat split.
    + intros Hi. specialize (Hwf _ Hi). lia.
    + eexists. rewrite <- (Nat.add_0_r (length bs)) at 1.
      by rewrite alter_app_r.
  - by destruct i.
Qed.

(** ** The statements at concrete inputs *)

(** Claim C1 as stated, at the bot just constructed and never started.
    Counting the heartbeat run by the open signal, six heartbeats leave the transport
    up with a seventh scheduled; counting timer ticks only, the sixth
    terminates it, but with no logger nothing is logged. *)
Lemma C1_six_heartbeats_do_not_terminate :
  let six_heartbeats :=
    run Json.parse example_no_raise (EvOpen :: repeat EvTimer 5) example_fresh in
  let six_timer_ticks :=
    run Json.parse example_no_raise (EvOpen :: repeat EvTimer 6) example_fresh in
  (count_of is_terminate (trace_of six_heartbeats) = 0%nat
   ∧ count_of is_probe (trace_of six_heartbeats) = 6%nat
   ∧ timers (world_of six_heartbeats) = 1%nat)
  ∧ (count_of is_terminate (trace_of six_timer_ticks) = 1%nat
     ∧ count_of is_error_log (trace_of six_timer_ticks) = 0%nat).
Proof. vm_compute. repeat split. Qed.

Lemma C1_witness :
  let ever :=
    run Json.parse example_no_raise
      (EvOpen :: repeat EvTimer 6 ++ [EvTimer; EvMessage "PONG"; EvStop; EvTimer])
      example_fresh in
  count_of is_probe (trace_of ever) = 6%nat
  ∧ count_of is_terminate (trace_of ever) = 1%nat.
Proof.
  exact (proj2 (proj2
    (C1_terminated_by_seventh_heartbeat Json.parse example_no_raise example_fresh
       [EvTimer; EvMessage "PONG"; EvStop; EvTimer] eq_refl eq_refl eq_refl))).
Defined.

(** Claim C2 as stated, at a bot that was never started: the open signal
    sends one probe, and the reply that follows finds nothing bound to the
    message signal. The counter is 1 after the reply, where no probe was
    sent since. *)
Lemma C2_reply_before_start_is_lost :
  let j := journal Json.parse example_no_raise [EvOpen; EvMessage "PONG"] example_fresh in
  heartbeatTimes (bot j.2) = 1%nat
  ∧ sent_since_reply j.1 = 0%nat
  ∧ ¬ (heartbeatTimes (bot j.2) ≤ sent_since_reply j.1)%nat.
Proof. vm_compute. repeat split. lia. Qed.

Lemma C2_witness :
  let j :=
    journal Json.parse example_no_raise
      (EvOpen :: map beat_event [Tick; Tick; Reply; Tick]) example_started in
  is_started example_started = true
  ∧ (heartbeatTimes (bot j.2) ≤ sent_since_reply j.1)%nat.
Proof.
  split; [reflexivity|].
  exact (proj1
    (C2_counter_bounded_by_probes_sent Json.parse example_no_raise example_started
       [Tick; Tick; Reply; Tick] eq_refl eq_refl)).
Defined.

Lemma C3_witness :
  heartbeatTimes
    (bot (world_of (onWebsocketMsg Json.parse example_no_raise "PONG" example_started)))
  = 0%nat.
Proof.
  exact (proj1 (proj2
    (C3_only_reply_resets_counter Json.parse example_no_raise example_started
       {| logger_name := "HeyBoxBot"; logger_dir := "/bot/logs"; logger_level := "info" |}
       eq_refl))).
Defined.

Lemma C4_witness :
  Json.parse example_frame_undecodable = None
  ∧ onWebsocketMsg Json.parse example_no_raise example_frame_undecodable example_started
    = (Normal tt, example_started,
       [Log debug (LogText example_frame_undecodable);
        Log error (LogExn (SyntaxError example_frame_undecodable))]).
Proof.
  split; [reflexivity|].
  exact (C4_undecodable_frame_logged_and_dropped Json.parse example_no_raise
           example_started
           {| logger_name := "HeyBoxBot"; logger_dir := "/bot/logs"; logger_level := "info" |}
           example_frame_undecodable eq_refl eq_refl eq_refl eq_refl).
Defined.

(** Claim C5, at an input where the code departs from it. The bot has one
    listener of before-start, which returns /custom, and [start] is called
    with /given. The post resolves to the one value /custom; [start] reads
    entry 1 of that array, where nothing is: the working path becomes
    [undefined], which is neither what the listener returned nor the path
    [start] was given; the logs directory is then undefined/logs, which
    cannot be made, and [start] is rejected before a logger exists or a
    handler is bound. With the two listeners of the other example it is
    the second one's value that is taken. *)
Theorem C5_start_reads_entry_one_of_the_results :
  let r := start example_clock 2 (Some "/given") example_one_listener in
  post_results (subscriptions (bot example_one_listener)) "before-start"
    [ArgBot; ArgPath "/given"]
  = [Some "/custom"]
  ∧ path (bot (world_of r)) = None
  ∧ logs_dir example_one_listener (Some "/given") = "undefined/logs"
  ∧ outcome r = Thrown (FsError "ENOENT" "undefined/logs")
  ∧ logger (bot (world_of r)) = None
  ∧ ws_message_listeners (bot (world_of r)) = 0%nat
  ∧ path (bot (world_of (start example_clock 2 (Some "/given") example_subscribed)))
    = Some "/bot".
Proof. vm_compute. repeat split. Qed.

(** Claim C7 as stated, at the started bot: the frame PONG is posted on
    the bus, on the topic websocket-message. *)
Lemma C7_reply_reaches_the_bus :
  trace_of (step Json.parse example_no_raise (EvMessage "PONG") example_started)
  = [Post "websocket-message" [ArgBot; ArgFrame "PONG"]; Log debug (LogText "PONG")].
Proof. vm_compute. reflexivity. Qed.


(** Claim C9 as stated, at the started bot: the frame
    [{"type":"5","data":{}}] decodes, its [data] has no [user_info], and nothing is posted: the error is
    logged and the frame dropped. *)
Lemma C9_partial_frame_is_dropped :
  Json.parse example_frame_no_user_info
  = Some (VObj [("type", VStr "5"); ("data", VObj [])])
  ∧ onWebsocketMsg Json.parse example_no_raise example_frame_no_user_info example_started
    = (Normal tt, example_started,
       [Log debug (LogText example_frame_no_user_info);
        Log error (LogExn (TypeError "user_base_info"))]).
Proof. vm_compute. split; reflexivity. Qed.

Lemma C9_witness :
  outcome (onWebsocketMsg Json.parse example_no_raise example_frame_no_user_info
             example_started)
  = Normal tt.
Proof.
  exact (proj1
    (C9_partial_frames_never_raise Json.parse example_no_raise example_started
       {| logger_name := "HeyBoxBot"; logger_dir := "/bot/logs"; logger_level := "info" |}
       example_frame_no_user_info eq_refl)).
Defined.

(** ** The further properties at concrete inputs *)

(** A bot that was never started: the open signal, a reply and a tick. The
    reply is lost and the counter stands at the two probes sent. *)
Lemma replies_before_start_are_lost_witness :
  let r := run Json.parse example_no_raise [EvOpen; EvMessage "PONG"; EvTimer]
             example_fresh in
  heartbeatTimes (bot (world_of r)) = 2%nat
  ∧ heartbeatTimes (bot (world_of r)) = count_of is_probe (trace_of r).
Proof.
  split; [vm_compute; reflexivity|].
  apply (replies_before_start_are_lost Json.parse example_no_raise
           example_config "/bot" example_files [EvOpen; EvMessage "PONG"; EvTimer]).
  repeat constructor.
Defined.

(** The started bot, opened, with a reply between two ticks: three probes
    and no termination. *)
Lemma heartbeat_decided_by_replies_witness :
  let r := run Json.parse example_no_raise
             (EvOpen :: map beat_event [Tick; Reply; Tick]) example_started in
  count_of is_terminate (trace_of r) = 0%nat
  ∧ timers (world_of r) = 1%nat
  ∧ count_of is_probe (trace_of r) = 3%nat.
Proof.
  apply (heartbeat_decided_by_replies Json.parse example_no_raise example_started
           [Tick; Reply; Tick]); vm_compute; reflexivity.
Defined.


(** The rotation in the example's logs directory completes and leaves no
    latest.log. *)
Lemma logger_starts_without_latest_log_witness :
  files (world_of (rotate_logs example_clock 0 "/bot/logs" example_subscribed))
    !! "/bot/logs/latest.log"
  = None.
Proof.
  apply (logger_starts_without_latest_log example_subscribed example_clock 0
           "/bot/logs").
  vm_compute. reflexivity.
Defined.

(** From no bot at all: the singleton is bot 0, and it still is after a
    single plugin was loaded and a command registered through the static
    method. *)
Lemma getInstance_is_stable_witness :
  BlackBox.getInstance
    (BlackBox.calls "/"
       [BlackBox.CallLoadPlugin {| BlackBox.single := true |};
        BlackBox.CallStaticCommand "plugin" "/test run"]
       (BlackBox.getInstance BlackBox.no_bots).2)
  = (0%nat,
     BlackBox.calls "/"
       [BlackBox.CallLoadPlugin {| BlackBox.single := true |};
        BlackBox.CallStaticCommand "plugin" "/test run"]
       (BlackBox.getInstance BlackBox.no_bots).2).
Proof.
  apply (getInstance_is_stable "/" BlackBox.no_bots
           [BlackBox.CallLoadPlugin {| BlackBox.single := true |};
            BlackBox.CallStaticCommand "plugin" "/test run"]).
  intros b H. discriminate H.
Defined.
